(** * The periodic stats collector (package container): model and properties

    The collector of [write_stats_collector] is Go code: a ticking loop that
    asks the database for the running instances, calls the container manager
    for the stats of each of them under a timeout context, and prunes old
    stats once when it starts.  Its collaborators (the [db] package, the
    [Manager] interface, the logrus logger) live outside the file; they are
    interfaces here, and every call the collector makes to them is recorded
    as an event, so that properties of the form "this call is (not) made" are
    statements about the list of events of an execution.

    The second part of the file does the same for the DNS clean-up script
    of the repository (cleanup_stale_dns_records), which is Python. *)

From Stdlib Require Import ZArith Ascii.
From stdpp Require Import base decidable list strings gmap pretty.

Local Open Scope string_scope.
Local Open Scope list_scope.
Local Open Scope Z_scope.

(** ** Go runtime primitives used by the collector *)

Module Go.

(** [time.Duration] is a count of nanoseconds. *)
Definition Duration := Z.
Definition Second : Duration := 1000000000.

(** An [error] value; [nil] is [None] of [option error]. *)
Inductive error := Err (msg : string).

(** What a goroutine can die of in this program. *)
Inductive panic :=
| CloseOfClosedChannel
| CloseOfNilChannel
| NonPositiveTickerInterval.

(** The state of a [chan struct{}] on which nothing is ever sent. *)
Inductive chan_state := ChanNil | ChanOpen | ChanClosed.

(** [make(chan struct{})] *)
Definition make_chan : chan_state := ChanOpen.

(** [close(ch)]: closing a nil or an already closed channel panics. *)
Definition close (ch : chan_state) : panic + chan_state :=
  match ch with
  | ChanNil => inl CloseOfNilChannel
  | ChanOpen => inr ChanClosed
  | ChanClosed => inl CloseOfClosedChannel
  end.

(** Whether [<-ch] can proceed: a receive from a closed channel always
    can, a receive from a nil channel or from an open channel without a
    sender never can. *)
Definition recv_ready (ch : chan_state) : bool :=
  match ch with ChanClosed => true | _ => false end.

(** A [context.Context]: its identity, the identities of the cancellable
    contexts above it (nearest first), and the timeout it was given. *)
Record Ctx := mkCtx {
  ctx_id : nat;
  ctx_above : list nat;
  ctx_timeout : option Duration
}.

(** [context.Background()]: never cancelled, no deadline. *)
Definition Background : Ctx :=
  {| ctx_id := 0%nat; ctx_above := []; ctx_timeout := None |}.

(** A context is cancelled once its own cancel function, or that of a
    context above it, has run. *)
Definition ctx_cancelled (cancelled : gset nat) (c : Ctx) : bool :=
  bool_decide (Exists (λ k, k ∈ cancelled) (ctx_id c :: ctx_above c)).

(** A [*time.Ticker]: its channel [C] has a buffer of one value. *)
Record Ticker := mkTicker {
  tk_pending : bool;
  tk_running : bool
}.

(** [time.NewTicker(d)] panics unless [d] is positive. *)
Definition NewTicker (d : Duration) : panic + Ticker :=
  if decide (d <= 0) then inl NonPositiveTickerInterval
  else inr {| tk_pending := false; tk_running := true |}.

(** The runtime delivers a tick: dropped when the buffer is full or the
    ticker is stopped. *)
Definition fire (t : Ticker) : Ticker :=
  if tk_running t then {| tk_pending := true; tk_running := true |} else t.

(** [<-t.C] taken by a select. *)
Definition take (t : Ticker) : Ticker :=
  {| tk_pending := false; tk_running := tk_running t |}.

(** [t.Stop()] *)
Definition stop_ticker (t : Ticker) : Ticker :=
  {| tk_pending := tk_pending t; tk_running := false |}.

End Go.

Import Go.

(** ** Data model *)

Definition InstanceID := N.

(** Modelled from the spec: the [Instance] record of the models package,
    which is not part of the file; the collector reads only its identifier
    and its container identifier. *)
Record Instance := mkInstance {
  ID : InstanceID;
  ContainerID : string
}.

(** Modelled from the spec: the payload of a stats call (CPU, memory),
    opaque to the collector, which discards it. *)
Record ResourceStats := mkStats {
  cpu_usage : Z;
  memory_usage : Z
}.

(** The values logged as fields of a log entry. *)
Inductive FieldValue :=
| FInt (n : Z)
| FStr (s : string)
| FID (i : InstanceID)
| FErr (e : error).

Inductive Level := DebugLevel | InfoLevel | ErrorLevel.

(** What the collector does to the outside, in the order it does it. A call
    is recorded with the error it returned. *)
Inductive Event :=
| EvPrune (maxPerInstance : Z) (err : option error)
| EvQuery (err : option error)
| EvWithTimeout (c : Ctx)
| EvFetch (c : Ctx) (cancelled : bool) (id : InstanceID) (err : option error)
| EvCancel (k : nat)
| EvLog (lvl : Level) (msg : string) (fields : list (string * FieldValue)).

(** ** The collaborators, as interfaces over the state [W] of the world *)

(** Package [db]. *)
Class Database (W : Type) := {
  GetRunningInstances : W → (list Instance * option error) * W;
  PruneResourceUsage : Z → W → option error * W
}.

(** Interface [Manager]; the boolean tells the callee whether the context it
    is given is already cancelled when the call starts. *)
Class Manager (W : Type) := {
  GetInstanceStats :
    Ctx → bool → InstanceID → W → (option ResourceStats * option error) * W
}.

(** ** State and effects *)

Record State (W : Type) := mkState {
  world : W;
  ctx_next : nat;
  ctx_done : gset nat
}.
Arguments mkState {W} _ _ _.
Arguments world {W} _.
Arguments ctx_next {W} _.
Arguments ctx_done {W} _.

(** A computation reads and writes the state and emits events. *)
Definition M (W A : Type) : Type := State W → A * State W * list Event.

Definition ret {W A} (a : A) : M W A := λ s, (a, s, []).

Definition bind {W A B} (m : M W A) (f : A → M W B) : M W B :=
  λ s, let '(a, s1, e1) := m s in
       let '(b, s2, e2) := f a s1 in
       (b, s2, e1 ++ e2).

Notation "'let!' x ':=' m 'in' k" := (bind m (λ x, k))
  (at level 10, x name, m at level 100, k at level 200).
Notation "'do!' m 'in' k" := (bind m (λ _, k))
  (at level 10, m at level 100, k at level 200).

Definition emit {W} (e : Event) : M W unit := λ s, (tt, s, [e]).

Definition result {W A} (r : A * State W * list Event) : A := r.1.1.
Definition final {W A} (r : A * State W * list Event) : State W := r.1.2.
Definition events {W A} (r : A * State W * list Event) : list Event := r.2.

(** [s.logger.WithFields(fields).<Level>(msg)] *)
Definition log {W} (lvl : Level) (msg : string)
    (fields : list (string * FieldValue)) : M W unit :=
  emit (EvLog lvl msg fields).

(** [context.WithTimeout(parent, d)]: a new context below [parent]; its
    cancel function is [cancel_ctx] at the new identity. *)
Definition WithTimeout {W} (parent : Ctx) (d : Duration) : M W Ctx :=
  λ s,
    let c := {| ctx_id := ctx_next s;
                ctx_above := ctx_id parent :: ctx_above parent;
                ctx_timeout := Some d |} in
    (c, mkState (world s) (S (ctx_next s)) (ctx_done s), [EvWithTimeout c]).

Definition cancel_ctx {W} (k : nat) : M W unit :=
  λ s, (tt, mkState (world s) (ctx_next s) ({[k]} ∪ ctx_done s), [EvCancel k]).

Section Collector.
Context {W : Type} `{Database W} `{Manager W}.

Definition call_GetRunningInstances : M W (list Instance * option error) :=
  λ s, let '(r, w) := GetRunningInstances (world s) in
       (r, mkState w (ctx_next s) (ctx_done s), [EvQuery r.2]).

Definition call_PruneResourceUsage (n : Z) : M W (option error) :=
  λ s, let '(r, w) := PruneResourceUsage n (world s) in
       (r, mkState w (ctx_next s) (ctx_done s), [EvPrune n r]).

Definition call_GetInstanceStats (c : Ctx) (id : InstanceID)
    : M W (option ResourceStats * option error) :=
  λ s, let d := ctx_cancelled (ctx_done s) c in
       let '(r, w) := GetInstanceStats c d id (world s) in
       (r, mkState w (ctx_next s) (ctx_done s), [EvFetch c d id r.2]).

(** ** The collector *)

(** The [manager] and [logger] fields are the [Manager] instance and the
    log events; the channel is represented by its state. *)
Record StatsCollector := mkCollector {
  collectionRate : Duration;
  stopChan : chan_state;
  maxPerInstance : Z
}.

Definition NewStatsCollector (collectionRate : Duration) : StatsCollector :=
  {| collectionRate := collectionRate;
     stopChan := make_chan;
     maxPerInstance := 100 |}.

(** [Stop]: [close(s.stopChan)] *)
Definition Stop (s : StatsCollector) : panic + StatsCollector :=
  match close (stopChan s) with
  | inl p => inl p
  | inr ch => inr {| collectionRate := collectionRate s;
                     stopChan := ch;
                     maxPerInstance := maxPerInstance s |}
  end.

Definition fetch_failed_fields (instance : Instance) (err : error)
    : list (string * FieldValue) :=
  [("instance_id", FID (ID instance));
   ("container_id", FStr (ContainerID instance));
   ("error", FErr err)].

(** The body of the [for … range instances] loop of [collectStats]. *)
Definition collect_instance (instance : Instance) : M W unit :=
  if decide (ContainerID instance = "") then ret tt
  else
    let! ctx := WithTimeout Background (5 * Second) in
    let! r := call_GetInstanceStats ctx (ID instance) in
    do! match r.2 with
        | Some err =>
            log ErrorLevel "Failed to collect stats for instance"
                (fetch_failed_fields instance err)
        | None => ret tt
        end in
    cancel_ctx (ctx_id ctx).

Fixpoint range_instances (instances : list Instance) : M W unit :=
  match instances with
  | [] => ret tt
  | instance :: rest =>
      do! collect_instance instance in range_instances rest
  end.

Definition collectStats (s : StatsCollector) : M W (option error) :=
  let! r := call_GetRunningInstances in
  match r.2 with
  | Some err => ret (Some err)
  | None =>
      do! log DebugLevel "Collecting stats for running instances"
              [("count", FInt (Z.of_nat (length r.1)))] in
      do! range_instances r.1 in
      ret None
  end.

Definition cleanupOldStats (s : StatsCollector) : M W (option error) :=
  call_PruneResourceUsage (maxPerInstance s).

(** The two branches of the [select] of [run], and what precedes the
    loop. [WithError(err)] is the field ["error"]. *)
Definition tick (s : StatsCollector) : M W unit :=
  let! err := collectStats s in
  match err with
  | Some e => log ErrorLevel "Failed to collect stats" [("error", FErr e)]
  | None => ret tt
  end.

Definition stopped : M W unit :=
  log InfoLevel "Stats collector stopped" [].

Definition startup (s : StatsCollector) : M W unit :=
  let! err := cleanupOldStats s in
  match err with
  | Some e => log ErrorLevel "Failed to clean up old stats" [("error", FErr e)]
  | None => ret tt
  end.

(** ** The loop of [run] under a schedule

    [run] waits on two channels. What the rest of the program and the Go
    runtime do to them is a schedule: the runtime delivers a tick, another
    goroutine calls [Stop], or the goroutine of [run] evaluates its
    [select]. When both cases of the [select] can proceed Go chooses one of
    them at random; the choice is the boolean of [Select]. A [select]
    that finds no case ready waits, and the goroutine goes on at a later
    [Select] of the schedule. A [Stop] or a tick that arrives while
    [collectStats] runs touches only the channels, which [collectStats]
    does not read, so it is scheduled right after that tick. A panic in
    any goroutine ends the program. *)
Inductive Wake :=
| TimerFire
| StopCall
| Select (pick_tick : bool).

Inductive Outcome :=
| Running
| Returned
| Crashed (p : panic).

Record Loop := mkLoop {
  lp_collector : StatsCollector;
  lp_ticker : Ticker;
  lp_state : State W;
  lp_events : list Event;
  lp_outcome : Outcome
}.

(** Runs a branch of the loop and appends its events. *)
Definition exec (m : M W unit) (tk : Ticker) (o : Outcome) (l : Loop) : Loop :=
  let r := m (lp_state l) in
  {| lp_collector := lp_collector l;
     lp_ticker := tk;
     lp_state := final r;
     lp_events := lp_events l ++ events r;
     lp_outcome := o |}.

(** One evaluation of the [select] of [run]. *)
Definition select (pick_tick : bool) (l : Loop) : Loop :=
  let can_tick := tk_pending (lp_ticker l) in
  let can_stop := recv_ready (stopChan (lp_collector l)) in
  if can_tick && (negb can_stop || pick_tick) then
    exec (tick (lp_collector l)) (take (lp_ticker l)) Running l
  else if can_stop then
    exec stopped (stop_ticker (lp_ticker l)) Returned l
  else l.

Definition step (l : Loop) (wk : Wake) : Loop :=
  match lp_outcome l, wk with
  | Crashed _, _ => l
  | _, TimerFire =>
      {| lp_collector := lp_collector l;
         lp_ticker := fire (lp_ticker l);
         lp_state := lp_state l;
         lp_events := lp_events l;
         lp_outcome := lp_outcome l |}
  | _, StopCall =>
      match Stop (lp_collector l) with
      | inl p =>
          {| lp_collector := lp_collector l;
             lp_ticker := lp_ticker l;
             lp_state := lp_state l;
             lp_events := lp_events l;
             lp_outcome := Crashed p |}
      | inr c =>
          {| lp_collector := c;
             lp_ticker := lp_ticker l;
             lp_state := lp_state l;
             lp_events := lp_events l;
             lp_outcome := lp_outcome l |}
      end
  | Running, Select pick_tick => select pick_tick l
  | Returned, Select _ => l
  end.

(** [run] up to its loop: the ticker, then the cleanup. *)
Definition run_start (s : StatsCollector) (st : State W) : Loop :=
  match NewTicker (collectionRate s) with
  | inl p =>
      {| lp_collector := s;
         lp_ticker := {| tk_pending := false; tk_running := false |};
         lp_state := st;
         lp_events := [];
         lp_outcome := Crashed p |}
  | inr tk =>
      exec (startup s) tk Running
        {| lp_collector := s;
           lp_ticker := tk;
           lp_state := st;
           lp_events := [];
           lp_outcome := Running |}
  end.

Definition run (s : StatsCollector) (st : State W) (sched : list Wake) : Loop :=
  foldl step (run_start s st) sched.

End Collector.

Arguments Loop W : clear implicits.

(** ** Reading a list of events *)

(** The instances for which stats were fetched, in order. *)
Definition fetched (evs : list Event) : list InstanceID :=
  omap (λ e, match e with EvFetch _ _ id _ => Some id | _ => None end) evs.

(** The contexts the stats calls were given, in order. *)
Definition fetch_ctxs (evs : list Event) : list Ctx :=
  omap (λ e, match e with EvFetch c _ _ _ => Some c | _ => None end) evs.

(** The contexts created, in order. *)
Definition created (evs : list Event) : list Ctx :=
  omap (λ e, match e with EvWithTimeout c => Some c | _ => None end) evs.

(** The contexts cancelled, in order. *)
Definition cancels (evs : list Event) : list nat :=
  omap (λ e, match e with EvCancel k => Some k | _ => None end) evs.

(** The results of the registry queries, one per tick that ran. *)
Definition queries (evs : list Event) : list (option error) :=
  omap (λ e, match e with EvQuery r => Some r | _ => None end) evs.

(** The caps passed to the pruning operation. *)
Definition prunes (evs : list Event) : list Z :=
  omap (λ e, match e with EvPrune n _ => Some n | _ => None end) evs.

(** The instances with a container, as the loop of [collectStats] sees them. *)
Definition provisioned (instances : list Instance) : list Instance :=
  filter (λ i, ContainerID i ≠ "") instances.

(** The state a program starts in: only the background context exists. *)
Definition init_state {W} (w : W) : State W :=
  {| world := w; ctx_next := 1%nat; ctx_done := ∅ |}.

(** No context that is still to be created is cancelled, and neither is the
    background context. *)
Definition ctx_wf {W} (s : State W) : Prop :=
  (0 < ctx_next s)%nat ∧ ∀ k, k ∈ ctx_done s → (0 < k < ctx_next s)%nat.

(** ** A world for examples

    The registry gives the same answer to every query, the stats call fails
    for the listed instances, and pruning gives the same answer each time. *)
Record Fixed := mkFixed {
  fx_registry : list Instance * option error;
  fx_failing : list InstanceID;
  fx_prune : option error
}.

#[export] Instance Fixed_Database : Database Fixed := {|
  GetRunningInstances w := (fx_registry w, w);
  PruneResourceUsage _ w := (fx_prune w, w)
|}.

#[export] Instance Fixed_Manager : Manager Fixed := {|
  GetInstanceStats _ _ id w :=
    if bool_decide (id ∈ fx_failing w)
    then ((None, Some (Err "stats unavailable")), w)
    else ((Some {| cpu_usage := 1; memory_usage := 1 |}, None), w)
|}.

Definition instance1 : Instance := {| ID := 1%N; ContainerID := "c1" |}.
Definition instance2 : Instance := {| ID := 2%N; ContainerID := "" |}.
Definition instance3 : Instance := {| ID := 3%N; ContainerID := "c3" |}.

Definition three_instances : list Instance := [instance1; instance2; instance3].

(** ** The shape of the events of one tick *)

(** The context [collectStats] creates for a fetch when [k] contexts exist:
    directly below the background context, with a timeout of five seconds. *)
Definition timeout_ctx (k : nat) : Ctx :=
  {| ctx_id := k; ctx_above := [0%nat]; ctx_timeout := Some 5000000000 |}.

(** What the loop does for one instance that has a container: create the
    context, fetch under it, log if the fetch failed, cancel the context. *)
Definition fetch_block (i : Instance) (c : Ctx) (d : bool) (r : option error)
    : list Event :=
  EvWithTimeout c :: EvFetch c d (ID i) r ::
  match r with
  | Some e =>
      [EvLog ErrorLevel "Failed to collect stats for instance"
         (fetch_failed_fields i e)]
  | None => []
  end ++ [EvCancel (ctx_id c)].

(** The events of a loop over [instances] that starts when [k] contexts
    exist: nothing for an instance without a container, one whole block for
    each other instance, whatever its fetch returned. *)
Inductive tick_body : nat → list Instance → list Event → Prop :=
| tb_nil k : tick_body k [] []
| tb_skip k i l evs :
    ContainerID i = "" → tick_body k l evs → tick_body k (i :: l) evs
| tb_fetch k i l d r evs :
    ContainerID i ≠ "" → tick_body (S k) l evs →
    tick_body k (i :: l) (fetch_block i (timeout_ctx k) d r ++ evs).

(** The fetch ran under a context that was not cancelled when it started. *)
Definition fetch_live (e : Event) : Prop :=
  match e with
  | EvFetch _ d _ _ => d = false
  | _ => True
  end.

(** What the loop of [collectStats] is preceded by when the query succeeds. *)
Definition tick_header (instances : list Instance) : list Event :=
  [EvQuery None;
   EvLog DebugLevel "Collecting stats for running instances"
     [("count", FInt (Z.of_nat (length instances)))]].

(** ** The control state of the loop

    What a schedule does to the channels, to the outcome of [run] and to the
    number of ticks that ran, written without the world: the branches are
    those of [step], and nothing the registry, the manager or the pruning
    operation returns appears in them. *)
Record Control := mkControl {
  ct_chan : chan_state;
  ct_ticker : Ticker;
  ct_outcome : Outcome;
  ct_ticks : nat
}.

Definition control_select (pick_tick : bool) (k : Control) : Control :=
  let can_tick := tk_pending (ct_ticker k) in
  let can_stop := recv_ready (ct_chan k) in
  if can_tick && (negb can_stop || pick_tick) then
    {| ct_chan := ct_chan k; ct_ticker := take (ct_ticker k);
       ct_outcome := Running; ct_ticks := S (ct_ticks k) |}
  else if can_stop then
    {| ct_chan := ct_chan k; ct_ticker := stop_ticker (ct_ticker k);
       ct_outcome := Returned; ct_ticks := ct_ticks k |}
  else k.

Definition control_step (k : Control) (wk : Wake) : Control :=
  match ct_outcome k, wk with
  | Crashed _, _ => k
  | _, TimerFire =>
      {| ct_chan := ct_chan k; ct_ticker := fire (ct_ticker k);
         ct_outcome := ct_outcome k; ct_ticks := ct_ticks k |}
  | _, StopCall =>
      match close (ct_chan k) with
      | inl p =>
          {| ct_chan := ct_chan k; ct_ticker := ct_ticker k;
             ct_outcome := Crashed p; ct_ticks := ct_ticks k |}
      | inr ch =>
          {| ct_chan := ch; ct_ticker := ct_ticker k;
             ct_outcome := ct_outcome k; ct_ticks := ct_ticks k |}
      end
  | Running, Select pick_tick => control_select pick_tick k
  | Returned, Select _ => k
  end.

Definition control_start (c : StatsCollector) : Control :=
  match NewTicker (collectionRate c) with
  | inl p =>
      {| ct_chan := stopChan c;
         ct_ticker := {| tk_pending := false; tk_running := false |};
         ct_outcome := Crashed p; ct_ticks := 0 |}
  | inr tk =>
      {| ct_chan := stopChan c; ct_ticker := tk;
         ct_outcome := Running; ct_ticks := 0 |}
  end.

(** The control state of a loop; a tick is counted by its registry query. *)
Definition control_of {W} (l : Loop W) : Control :=
  {| ct_chan := stopChan (lp_collector l);
     ct_ticker := lp_ticker l;
     ct_outcome := lp_outcome l;
     ct_ticks := length (queries (lp_events l)) |}.

(** ** Example worlds *)

(** The stats call fails for instance 1 of the three instances. *)
Definition first_fails : Fixed :=
  {| fx_registry := (three_instances, None);
     fx_failing := [1%N];
     fx_prune := None |}.

(** The database is down: the query and the pruning fail. *)
Definition db_down : Fixed :=
  {| fx_registry := ([], Some (Err "connection refused"));
     fx_failing := [];
     fx_prune := Some (Err "connection refused") |}.

(** A collector that ticks every second, and one whose interval is zero. *)
Definition every_second : StatsCollector := NewStatsCollector Second.
Definition no_interval : StatsCollector := NewStatsCollector 0.

(** A tick is delivered, the loop runs it, [Stop] is called, the loop sees
    the closed channel. *)
Definition tick_then_stop : list Wake :=
  [TimerFire; Select true; StopCall; Select false].

(** A tick is delivered and [Stop] is called before the loop is scheduled;
    its [select] finds both cases ready and takes the tick. *)
Definition stop_races_tick : list Wake := [TimerFire; StopCall; Select true].

(** ** Counting in schedules and events *)


Fixpoint stop_calls (sched : list Wake) : nat :=
  match sched with
  | [] => 0
  | StopCall :: rest => S (stop_calls rest)
  | _ :: rest => stop_calls rest
  end.

(** The stats calls that returned an error, with the instance. *)
Definition fetch_failures (evs : list Event) : list (InstanceID * error) :=
  omap (λ e, match e with
             | EvFetch _ _ id (Some err) => Some (id, err)
             | _ => None
             end) evs.

(** The failures [collectStats] logged, with the instance and the error. *)
Definition failure_logs (evs : list Event) : list (InstanceID * error) :=
  omap (λ e, match e with
             | EvLog ErrorLevel msg [(_, FID id); (_, FStr _); (_, FErr err)] =>
                 if String.eqb msg "Failed to collect stats for instance"
                 then Some (id, err) else None
             | _ => None
             end) evs.

(** The line [run] logs when it returns. *)
Definition stopped_line : Event := EvLog InfoLevel "Stats collector stopped" [].

(** * The DNS clean-up script (cleanup_stale_dns_records)

    The script is Python. It lists the running containers, reads the DNS
    rewrite records of the server, and deletes the records of the form
    [<name>.docker] whose container is not running. Its strings are ASCII
    text here, a record is a JSON object whose fields are strings (what the
    rewrite list of the server consists of), and [_make_request], which
    wraps the HTTP library, is the boundary: a request is an event and its
    reply comes from the world. *)

Abbreviation DnsRecord := (gmap string string).

(** ** Python built-ins the script uses *)

(** [d[k] = v] on a [dict], which keeps its keys in insertion order: an
    existing key keeps its place, a new key goes to the end. *)
Fixpoint dict_set {V} (k : string) (v : V) (d : list (string * V))
    : list (string * V) :=
  match d with
  | [] => [(k, v)]
  | (k', v') :: d' =>
      if decide (k' = k) then (k, v) :: d' else (k', v') :: dict_set k v d'
  end.

(** [s.startswith(p)] *)
Fixpoint startswith (s p : string) : bool :=
  match p, s with
  | EmptyString, _ => true
  | String _ _, EmptyString => false
  | String a p', String b s' => Ascii.eqb a b && startswith s' p'
  end.

(** [s.endswith(suffix)] *)
Fixpoint endswith (s suffix : string) : bool :=
  if String.eqb s suffix then true
  else match s with
       | EmptyString => false
       | String _ s' => endswith s' suffix
       end.

(** [s.replace(old, new)] for a non-empty [old]: the occurrences of [old]
    are taken from left to right and do not overlap; [skip] counts the
    characters of an occurrence that are still to be passed over. *)
Fixpoint replace_from (old new : string) (skip : nat) (s : string) : string :=
  match s with
  | EmptyString => EmptyString
  | String c s' =>
      match skip with
      | S n => replace_from old new n s'
      | O =>
          if startswith s old
          then new +:+ replace_from old new (String.length old - 1) s'
          else String c (replace_from old new 0 s')
      end
  end.

Definition str_replace (s old new : string) : string := replace_from old new 0 s.

(** The ASCII characters [str.isspace] accepts. *)
Definition is_space (c : ascii) : bool :=
  let n := nat_of_ascii c in
  ((9 <=? n)%nat && (n <=? 13)%nat) || ((28 <=? n)%nat && (n <=? 32)%nat).

Fixpoint lstrip (s : string) : string :=
  match s with
  | EmptyString => EmptyString
  | String c s' => if is_space c then lstrip s' else s
  end.

Fixpoint rstrip (s : string) : string :=
  match s with
  | EmptyString => EmptyString
  | String c s' =>
      match rstrip s' with
      | EmptyString => if is_space c then EmptyString else String c EmptyString
      | r => String c r
      end
  end.

(** [s.strip()] *)
Definition strip (s : string) : string := rstrip (lstrip s).

(** [s.split(sep)] for a separator of one character. *)
Fixpoint split (sep : ascii) (s : string) : list string :=
  match s with
  | EmptyString => [EmptyString]
  | String c s' =>
      if Ascii.eqb c sep then EmptyString :: split sep s'
      else match split sep s' with
           | h :: t => String c h :: t
           | [] => [String c EmptyString]
           end
  end.

Definition newline : ascii := ascii_of_nat 10.

(** ** Effects of the script *)

Inductive PyLevel := INFO | WARNING | ERROR.

Inductive Method := GET | POST.

(** What a request to the rewrite API can give back when it succeeds: a list
    of records, or the empty object [_make_request] returns for an empty
    body. *)
Inductive Response :=
| RecordList (records : list DnsRecord)
| EmptyObject.

Inductive PyEvent :=
| PyLog (lvl : PyLevel) (msg : string)
| PyDockerPs
| PyRequest (endpoint : string) (method : Method) (data : list (string * string))
| PySleep (seconds : Z).

(** The machine the script runs on: [docker ps] gives its output or fails
    with a message, a request gives a response or [None]. *)
Class Host (W : Type) := {
  docker_ps : W → (string + string) * W;
  _make_request :
    string → Method → list (string * string) → W → option Response * W
}.

Definition Py (W A : Type) : Type := W → A * W * list PyEvent.

Definition py_ret {W A} (a : A) : Py W A := λ w, (a, w, []).

Definition py_bind {W A B} (m : Py W A) (f : A → Py W B) : Py W B :=
  λ w, let '(a, w1, e1) := m w in
       let '(b, w2, e2) := f a w1 in
       (b, w2, e1 ++ e2).

Notation "'let$' x ':=' m 'in' k" := (py_bind m (λ x, k))
  (at level 10, x name, m at level 100, k at level 200).
Notation "'do$' m 'in' k" := (py_bind m (λ _, k))
  (at level 10, m at level 100, k at level 200).

Definition py_log {W} (lvl : PyLevel) (msg : string) : Py W unit :=
  λ w, (tt, w, [PyLog lvl msg]).

Definition py_sleep {W} (seconds : Z) : Py W unit :=
  λ w, (tt, w, [PySleep seconds]).

(** [for x in l: body(x)] *)
Fixpoint py_for {W A} (l : list A) (body : A → Py W unit) : Py W unit :=
  match l with
  | [] => py_ret tt
  | x :: l' => do$ body x in py_for l' body
  end.

Definition py_result {W A} (r : A * W * list PyEvent) : A := r.1.1.
Definition py_events {W A} (r : A * W * list PyEvent) : list PyEvent := r.2.

(** ** The script *)

(** [record.get("domain", "")] and [record.get("answer", "")] *)
Definition domain_of (record : DnsRecord) : string := default "" (record !! "domain").
Definition answer_of (record : DnsRecord) : string := default "" (record !! "answer").

(** The loop body of [deduplicate_records]: [record.get("domain")] is
    [None] or a string, and the empty string is false. *)
Definition dedup_step (unique_records : list (string * DnsRecord))
    (record : DnsRecord) : list (string * DnsRecord) :=
  match record !! "domain" with
  | Some domain =>
      if decide (domain = "") then unique_records
      else dict_set domain record unique_records
  | None => unique_records
  end.

Definition deduplicate_records (records : list DnsRecord) : list DnsRecord :=
  (foldl dedup_step [] records).*2.

Definition get_test_active_containers : list string :=
  ["blue-wolf"; "pearl-puppy"; "jolly-willow"].

Definition excluded : list string := ["test.docker"; "test-record.docker"].

Definition is_container_dns_record (domain : string) : bool :=
  if negb (endswith domain ".docker") then false
  else if bool_decide (domain ∈ excluded) then false
  else true.

(** [domain.replace(".docker", "")] *)
Definition container_name (domain : string) : string :=
  str_replace domain ".docker" "".

(** The list comprehension of [get_active_containers]. *)
Definition container_names (stdout : string) : list string :=
  filter (λ name, name ≠ "") (split newline (strip stdout)).

(** Iterating over a response: the empty object has no keys. *)
Definition records_of (r : Response) : list DnsRecord :=
  match r with
  | RecordList l => l
  | EmptyObject => []
  end.

(** The records the clean-up looks at and how it sorts them. *)
Definition container_records (records : list DnsRecord) : list DnsRecord :=
  filter (λ r, is_container_dns_record (domain_of r) = true) records.

Definition other_records (records : list DnsRecord) : list DnsRecord :=
  filter (λ r, is_container_dns_record (domain_of r) ≠ true) records.

Definition stale_of (active_containers : list string) (records : list DnsRecord)
    : list DnsRecord :=
  filter (λ r, container_name (domain_of r) ∉ active_containers) records.

Definition active_of (active_containers : list string) (records : list DnsRecord)
    : list DnsRecord :=
  filter (λ r, container_name (domain_of r) ∈ active_containers) records.

(** The count of the verification loop. *)
Definition remaining_stale (active_containers : list string)
    (updated_records : list DnsRecord) : nat :=
  length (filter (λ r, is_container_dns_record (domain_of r) = true ∧
                       container_name (domain_of r) ∉ active_containers)
                 updated_records).

Section Script.
Context {W : Type} `{Host W}.

Definition request (endpoint : string) (method : Method)
    (data : list (string * string)) : Py W (option Response) :=
  λ w, let '(r, w') := _make_request endpoint method data w in
       (r, w', [PyRequest endpoint method data]).

Definition get_dns_records : Py W (option Response) :=
  request "control/rewrite/list" GET [].

Definition add_dns_record (domain answer : string) : Py W (option Response) :=
  do$ py_log INFO ("Adding DNS record: " +:+ domain +:+ " -> " +:+ answer) in
  request "control/rewrite/add" POST [("domain", domain); ("answer", answer)].

Definition delete_dns_record (domain : string) : Py W (option Response) :=
  do$ py_log INFO ("Deleting DNS record: " +:+ domain) in
  request "control/rewrite/delete" POST [("domain", domain)].

Definition get_active_containers : Py W (list string) :=
  λ w, match docker_ps w with
       | (inr stdout, w') => (container_names stdout, w', [PyDockerPs])
       | (inl e, w') =>
           ([], w',
            [PyDockerPs; PyLog ERROR ("Error getting active containers: " +:+ e)])
       end.

(** The branch of [cleanup_stale_dns_records] under [if dry_run]. *)
Definition dry_run_report (active_containers : list string)
    (stale_records : list DnsRecord) : Py W bool :=
  do$ py_log INFO "DRY RUN: No changes will be made" in
  do$ py_log INFO "Active containers:" in
  do$ py_for active_containers (λ container, py_log INFO ("  " +:+ container)) in
  do$ py_log INFO "Stale DNS records that would be deleted:" in
  do$ py_for stale_records (λ record,
        py_log INFO ("  " +:+ domain_of record +:+ " -> " +:+ answer_of record)) in
  py_ret true.

(** The part under [# Verify cleanup]. *)
Definition verify_cleanup (force_cleanup : bool) (active_containers : list string)
    : Py W bool :=
  do$ py_sleep 2 in
  let$ updated_records := get_dns_records in
  match updated_records with
  | None => do$ py_log ERROR "Failed to get updated DNS records" in py_ret false
  | Some updated =>
      let n := remaining_stale active_containers (records_of updated) in
      do$ (if decide (0 < n)%nat then
             do$ py_log WARNING ("There are still " +:+ pretty n +:+
                                 " stale DNS records remaining") in
             if negb force_cleanup then
               py_log INFO
                 "Consider running with --force to perform a complete cleanup"
             else py_ret tt
           else py_log INFO "All stale DNS records have been removed") in
      py_ret true
  end.

(** The part under [# Delete stale records], when there are some. *)
Definition delete_stale (force_cleanup : bool)
    (container_dns_records active_records stale_records : list DnsRecord)
    : Py W unit :=
  if force_cleanup then
    do$ py_log INFO
          "Force cleanup mode: Deleting all container DNS records and recreating active ones" in
    do$ py_for container_dns_records (λ record,
          do$ delete_dns_record (domain_of record) in py_ret tt) in
    do$ py_for active_records (λ record,
          do$ add_dns_record (domain_of record) (answer_of record) in py_ret tt) in
    py_log INFO "Force cleanup completed"
  else
    do$ py_log INFO "Deleting stale DNS records" in
    do$ py_for stale_records (λ record,
          do$ delete_dns_record (domain_of record) in py_ret tt) in
    py_log INFO ("Attempted to delete " +:+ pretty (length stale_records) +:+
                 " stale DNS records").

(** The part under [# Get active container names]. *)
Definition list_active (test_mode : bool) : Py W (list string) :=
  if test_mode then
    do$ py_log INFO "Using test container data" in
    py_ret get_test_active_containers
  else get_active_containers.

(** What follows a successful read of the records. *)
Definition clean_records (dry_run force_cleanup : bool)
    (active_containers : list string) (response : Response) : Py W bool :=
  let dns_records := deduplicate_records (records_of response) in
  do$ py_log INFO ("Found " +:+ pretty (length dns_records) +:+
                   " unique DNS records") in
  let container_dns_records := container_records dns_records in
  let other_dns_records := other_records dns_records in
  do$ py_log INFO ("Found " +:+ pretty (length container_dns_records) +:+
                   " container DNS records") in
  do$ py_log INFO ("Found " +:+ pretty (length other_dns_records) +:+
                   " other DNS records") in
  let stale_records := stale_of active_containers container_dns_records in
  let active_records := active_of active_containers container_dns_records in
  do$ py_log INFO ("Found " +:+ pretty (length stale_records) +:+
                   " stale container DNS records") in
  do$ py_log INFO ("Found " +:+ pretty (length active_records) +:+
                   " active container DNS records") in
  if dry_run then dry_run_report active_containers stale_records
  else
    match stale_records with
    | _ :: _ =>
        do$ delete_stale force_cleanup container_dns_records
              active_records stale_records in
        verify_cleanup force_cleanup active_containers
    | [] =>
        do$ py_log INFO "No stale DNS records found" in
        py_ret true
    end.

Definition cleanup_stale_dns_records (dry_run force_cleanup test_mode : bool)
    : Py W bool :=
  let$ active_containers := list_active test_mode in
  do$ py_log INFO ("Found " +:+ pretty (length active_containers) +:+
                   " active containers: " +:+
                   String.concat ", " active_containers) in
  let$ dns_records := get_dns_records in
  match dns_records with
  | None => do$ py_log ERROR "Failed to get DNS records" in py_ret false
  | Some response =>
      clean_records dry_run force_cleanup active_containers response
  end.

(** [main], after the arguments are parsed: the exit status. *)
Definition main (dry_run force test : bool) : Py W Z :=
  let$ ok := cleanup_stale_dns_records dry_run force test in
  py_ret (if ok then 0 else 1).

End Script.

(** ** Reading the events of the script *)

(** The requests that change the server. *)
Definition posts (evs : list PyEvent) : list (string * list (string * string)) :=
  omap (λ e, match e with
             | PyRequest ep POST data => Some (ep, data)
             | _ => None
             end) evs.

(** The domains for which a delete was requested, in order. *)
Definition deleted (evs : list PyEvent) : list string :=
  omap (λ e, match e with
             | PyRequest "control/rewrite/delete" POST [("domain", d)] => Some d
             | _ => None
             end) evs.

(** The records for which an add was requested, in order. *)
Definition added (evs : list PyEvent) : list (string * string) :=
  omap (λ e, match e with
             | PyRequest "control/rewrite/add" POST
                 [("domain", d); ("answer", a)] => Some (d, a)
             | _ => None
             end) evs.

(** The endpoints that were read, in order. *)
Definition gets (evs : list PyEvent) : list string :=
  omap (λ e, match e with
             | PyRequest ep GET _ => Some ep
             | _ => None
             end) evs.

(** ** A scripted machine for examples

    [docker ps] prints the given text; the reads of the rewrite list are
    answered in turn from a list, and then fail; every other request is
    answered with the empty object. *)
Record Scripted := mkScripted {
  sc_docker : string + string;
  sc_lists : list (option Response)
}.

#[export] Instance Scripted_Host : Host Scripted := {|
  docker_ps w := (sc_docker w, w);
  _make_request endpoint method data w :=
    match method with
    | GET =>
        match sc_lists w with
        | r :: rest => (r, {| sc_docker := sc_docker w; sc_lists := rest |})
        | [] => (None, w)
        end
    | POST => (Some EmptyObject, w)
    end
|}.

Definition rewrite (domain answer : string) : DnsRecord :=
  {[ "domain" := domain; "answer" := answer ]}.

Definition py_final {W A} (r : A * W * list PyEvent) : W := r.1.2.

(** The events other than log lines. *)
Definition actions (evs : list PyEvent) : list PyEvent :=
  omap (λ e, match e with PyLog _ _ => None | _ => Some e end) evs.

(** The pauses, in seconds. *)
Definition sleeps (evs : list PyEvent) : list Z :=
  omap (λ e, match e with PySleep n => Some n | _ => None end) evs.

(** The requests of [get_dns_records], [delete_dns_record] and
    [add_dns_record]. *)
Definition list_request : PyEvent := PyRequest "control/rewrite/list" GET [].

Definition delete_request (domain : string) : PyEvent :=
  PyRequest "control/rewrite/delete" POST [("domain", domain)].

Definition add_request (record : DnsRecord) : PyEvent :=
  PyRequest "control/rewrite/add" POST
    [("domain", domain_of record); ("answer", answer_of record)].

(** What [clean_records] does apart from logging: nothing on a dry run or
    when no record is stale; otherwise the deletions (and, when forced, the
    additions), the pause and the second read. *)
Definition changes (force_cleanup : bool) (active_containers : list string)
    (response : Response) : list PyEvent :=
  let container_dns_records :=
    container_records (deduplicate_records (records_of response)) in
  if force_cleanup then
    ((λ r, delete_request (domain_of r)) <$> container_dns_records) ++
    (add_request <$> active_of active_containers container_dns_records)
  else
    (λ r, delete_request (domain_of r)) <$>
      stale_of active_containers container_dns_records.

Definition planned (dry_run force_cleanup : bool)
    (active_containers : list string) (response : Response) : list PyEvent :=
  if dry_run then []
  else
    match stale_of active_containers
            (container_records (deduplicate_records (records_of response))) with
    | [] => []
    | _ :: _ =>
        changes force_cleanup active_containers response ++
        [PySleep 2; list_request]
    end.

(** What [docker ps --format {{.Names}}] prints for the given containers:
    each name on a line of its own. *)
Definition docker_output (names : list string) : string :=
  foldr (λ name out, name +:+ String newline out) EmptyString names.

(** The characters of a string. *)
Fixpoint chars (s : string) : list ascii :=
  match s with
  | EmptyString => []
  | String c s' => c :: chars s'
  end.

(** The non-empty domains of a list of records, in order. *)
Definition domains (records : list DnsRecord) : list string :=
  omap (λ r, match r !! "domain" with
             | Some d => if decide (d = "") then None else Some d
             | None => None
             end) records.

(** The server lists two records for [web.docker], one for a container
    that is gone, one that is no container record and an excluded one. *)
Definition listed : list DnsRecord :=
  [rewrite "web.docker" "10.0.0.1"; rewrite "old.docker" "10.0.0.2";
   rewrite "web.docker" "10.0.0.3"; rewrite "example.com" "1.2.3.4";
   rewrite "test.docker" "1.1.1.1"].

(** The containers [web] and [db] run; the second read of the records
    gives the empty object. *)
Definition demo : Scripted :=
  {| sc_docker := inr (docker_output ["web"; "db"]);
     sc_lists := [Some (RecordList listed); Some EmptyObject] |}.

(** The server cannot be reached. *)
Definition unreachable : Scripted :=
  {| sc_docker := inr (docker_output ["web"; "db"]); sc_lists := [] |}.

(** Every container record on the server belongs to a running container. *)
Definition tidy : Scripted :=
  {| sc_docker := inr (docker_output ["web"; "db"]);
     sc_lists := [Some (RecordList [rewrite "web.docker" "10.0.0.1";
                                    rewrite "example.com" "1.2.3.4"])] |}.

(** [docker] is not installed. *)
Definition docker_down : Scripted :=
  {| sc_docker := inl "No such file or directory: docker";
     sc_lists := [Some (RecordList listed); Some EmptyObject] |}.

(** * Properties *)

Section CollectorProperties.
Context {W : Type} `{Database W} `{Manager W}.

Lemma collect_instance_skip (i : Instance) (s : State W) :
  ContainerID i = "" → collect_instance i s = (tt, s, []).
Proof.
  intros Hc. unfold collect_instance.
  destruct (decide (ContainerID i = "")) as [_|Hn]; [reflexivity|contradiction].
Qed.

Lemma collect_instance_fetch (i : Instance) (s : State W) :
  ContainerID i ≠ "" →
  let c := timeout_ctx (ctx_next s) in
  let d := ctx_cancelled (ctx_done s) c in
  let rw := GetInstanceStats c d (ID i) (world s) in
  collect_instance i s =
    (tt, mkState rw.2 (S (ctx_next s)) ({[ctx_next s]} ∪ ctx_done s),
     fetch_block i c d rw.1.2).
Proof.
  intros Hc c d rw. unfold collect_instance.
  destruct (decide (ContainerID i = "")) as [He|_]; [contradiction|].
  subst rw d c.
  unfold bind, WithTimeout, call_GetInstanceStats, cancel_ctx, fetch_block,
    timeout_ctx.
  change (5 * Second) with 5000000000.
  cbn [ctx_next ctx_done world Background ctx_id ctx_above].
  destruct (GetInstanceStats _ _ (ID i) (world s)) as [[st [e|]] w];
    reflexivity.
Qed.

Lemma range_instances_cons (i : Instance) (l : list Instance) (s : State W) :
  range_instances (i :: l) s =
    let r := collect_instance i s in
    let r' := range_instances l (final r) in
    (tt, final r', events r ++ events r').
Proof.
  cbn [range_instances]. unfold bind, final, events.
  destruct (collect_instance i s) as [[[] s1] e1]. cbn.
  destruct (range_instances l s1) as [[[] s2] e2]. reflexivity.
Qed.

Lemma range_instances_body (l : list Instance) :
  ∀ s : State W, tick_body (ctx_next s) l (events (range_instances l s)).
Proof.
  induction l as [|i l IH]; intros s.
  - constructor.
  - rewrite range_instances_cons.
    destruct (decide (ContainerID i = "")) as [He|Hn].
    + rewrite (collect_instance_skip i s He). cbn.
      apply tb_skip; [exact He|apply IH].
    + rewrite (collect_instance_fetch i s Hn). cbn.
      apply tb_fetch; [exact Hn|].
      apply (IH (mkState _ (S (ctx_next s)) _)).
Qed.

Lemma collectStats_ok (c : StatsCollector) (s : State W) l w' :
  GetRunningInstances (world s) = ((l, None), w') →
  collectStats c s =
    let r := range_instances l (mkState w' (ctx_next s) (ctx_done s)) in
    (None, final r, tick_header l ++ events r).
Proof.
  intros Hq. unfold collectStats, bind, call_GetRunningInstances.
  rewrite Hq. cbn.
  destruct (range_instances l _) as [[[] s2] e2]. cbn.
  rewrite app_nil_r. reflexivity.
Qed.

Lemma collectStats_failed (c : StatsCollector) (s : State W) l e w' :
  GetRunningInstances (world s) = ((l, Some e), w') →
  collectStats c s =
    (Some e, mkState w' (ctx_next s) (ctx_done s), [EvQuery (Some e)]).
Proof.
  intros Hq. unfold collectStats, bind, call_GetRunningInstances.
  rewrite Hq. reflexivity.
Qed.

(** Contexts of a well-formed state stay apart from the next fetch. *)
Lemma fresh_ctx_live (s : State W) :
  ctx_wf s → ctx_cancelled (ctx_done s) (timeout_ctx (ctx_next s)) = false.
Proof.
  intros [Hpos Hlt]. unfold ctx_cancelled. apply bool_decide_eq_false.
  cbn. rewrite !Exists_cons, Exists_nil.
  intros [Hk|[Hk|[]]]; apply Hlt in Hk; lia.
Qed.

Lemma range_instances_live (l : list Instance) :
  ∀ s : State W, ctx_wf s →
    Forall fetch_live (events (range_instances l s)) ∧
    ctx_wf (final (range_instances l s)).
Proof.
  induction l as [|i l IH]; intros s Hwf.
  - split; [constructor|exact Hwf].
  - rewrite range_instances_cons.
    destruct (decide (ContainerID i = "")) as [He|Hn].
    + rewrite (collect_instance_skip i s He). cbn. apply IH, Hwf.
    + rewrite (collect_instance_fetch i s Hn). cbn zeta.
      rewrite (fresh_ctx_live s Hwf).
      set (s1 := mkState _ (S (ctx_next s)) _).
      assert (Hwf1 : ctx_wf s1).
      { destruct Hwf as [Hpos Hlt]. split; cbn; [lia|].
        intros k Hk. apply elem_of_union in Hk as [Hk|Hk].
        - apply elem_of_singleton in Hk. lia.
        - apply Hlt in Hk. lia. }
      destruct (IH s1 Hwf1) as [Hlive Hwf2].
      split; [|exact Hwf2].
      unfold events at 1. cbn [snd fst final].
      apply Forall_app. split; [|exact Hlive].
      unfold fetch_block.
      repeat (constructor; [cbn; auto|]).
      apply Forall_app. split; [|repeat constructor].
      destruct (_.1.2); repeat constructor.
Qed.

End CollectorProperties.

(** ** What a loop body of the right shape contains *)

Lemma fetch_block_fetched i c d r : fetched (fetch_block i c d r) = [ID i].
Proof. destruct r; reflexivity. Qed.

Lemma fetch_block_ctxs i c d r : fetch_ctxs (fetch_block i c d r) = [c].
Proof. destruct r; reflexivity. Qed.

Lemma fetch_block_created i c d r : created (fetch_block i c d r) = [c].
Proof. destruct r; reflexivity. Qed.

Lemma fetch_block_cancels i c d r : cancels (fetch_block i c d r) = [ctx_id c].
Proof. destruct r; reflexivity. Qed.

Lemma provisioned_skip i l : ContainerID i = "" → provisioned (i :: l) = provisioned l.
Proof. intros He. unfold provisioned. apply filter_cons_False. intros Hn. exact (Hn He). Qed.

Lemma provisioned_keep i l :
  ContainerID i ≠ "" → provisioned (i :: l) = i :: provisioned l.
Proof. intros Hn. unfold provisioned. apply filter_cons_True. exact Hn. Qed.

Lemma tick_body_fetched k l evs :
  tick_body k l evs → fetched evs = map ID (provisioned l).
Proof.
  induction 1 as [k|k i l evs He _ IH|k i l d r evs Hn _ IH].
  - reflexivity.
  - rewrite (provisioned_skip i l He). exact IH.
  - rewrite (provisioned_keep i l Hn). unfold fetched in *.
    rewrite omap_app. fold (fetched (fetch_block i (timeout_ctx k) d r)).
    rewrite fetch_block_fetched, IH. reflexivity.
Qed.

Lemma tick_body_ctxs k l evs :
  tick_body k l evs →
  fetch_ctxs evs = map timeout_ctx (seq k (length (provisioned l))) ∧
  created evs = fetch_ctxs evs ∧
  cancels evs = map ctx_id (fetch_ctxs evs).
Proof.
  induction 1 as [k|k i l evs He _ IH|k i l d r evs Hn _ IH].
  - repeat split.
  - rewrite (provisioned_skip i l He). exact IH.
  - rewrite (provisioned_keep i l Hn). destruct IH as (IH1 & IH2 & IH3).
    unfold fetch_ctxs, created, cancels in *. rewrite !omap_app.
    fold (fetch_ctxs (fetch_block i (timeout_ctx k) d r)).
    fold (created (fetch_block i (timeout_ctx k) d r)).
    fold (cancels (fetch_block i (timeout_ctx k) d r)).
    rewrite fetch_block_ctxs, fetch_block_created, fetch_block_cancels.
    rewrite IH1, IH2, IH3, IH1. repeat split.
Qed.

Lemma tick_body_calls k l evs :
  tick_body k l evs → queries evs = [] ∧ prunes evs = [].
Proof.
  induction 1 as [k|k i l evs He _ IH|k i l d r evs Hn _ IH].
  - split; reflexivity.
  - exact IH.
  - destruct IH as [IH1 IH2]. unfold queries, prunes in *.
    rewrite !omap_app, IH1, IH2. destruct r; split; reflexivity.
Qed.

(** Cancelling a context leaves every context that is not below it as it
    was. *)
Lemma cancel_elsewhere (done : gset nat) (k : nat) (c : Ctx) :
  k ∉ ctx_id c :: ctx_above c →
  ctx_cancelled ({[k]} ∪ done) c = ctx_cancelled done c.
Proof.
  intros Hk. unfold ctx_cancelled. apply bool_decide_ext.
  rewrite !Exists_exists. split.
  - intros (j & Hj & Hin). exists j. split; [exact Hj|].
    apply elem_of_union in Hin as [Hin|Hin]; [|exact Hin].
    apply elem_of_singleton in Hin. subst j. contradiction.
  - intros (j & Hj & Hin). exists j. split; [exact Hj|].
    apply elem_of_union. right. exact Hin.
Qed.

Lemma tick_body_app_inv k l1 l2 evs :
  tick_body k (l1 ++ l2) evs →
  ∃ e1 e2, evs = e1 ++ e2 ∧ tick_body k l1 e1 ∧
           tick_body (k + length (provisioned l1)) l2 e2.
Proof.
  revert k evs. induction l1 as [|i l1 IH]; intros k evs Hb.
  - exists [], evs. cbn. rewrite Nat.add_0_r. repeat split; [constructor|exact Hb].
  - cbn in Hb. inversion Hb as [|k' i' l' evs' He Hb'|k' i' l' d r evs' Hn Hb']; subst.
    + destruct (IH _ _ Hb') as (e1 & e2 & -> & H1 & H2).
      exists e1, e2. rewrite (provisioned_skip i l1 He).
      repeat split; [apply tb_skip; assumption|exact H2].
    + destruct (IH _ _ Hb') as (e1 & e2 & -> & H1 & H2).
      exists (fetch_block i (timeout_ctx k) d r ++ e1), e2.
      rewrite (provisioned_keep i l1 Hn). cbn [length].
      rewrite Nat.add_succ_r. rewrite app_assoc.
      repeat split; [apply tb_fetch; assumption|exact H2].
Qed.

Lemma tick_body_cons_inv k i l evs :
  ContainerID i ≠ "" → tick_body k (i :: l) evs →
  ∃ d r e2, evs = fetch_block i (timeout_ctx k) d r ++ e2 ∧ tick_body (S k) l e2.
Proof.
  intros Hn Hb. inversion Hb; subst; [contradiction|]. eauto.
Qed.

Lemma timeout_ctx_ids (ks : list nat) : map ctx_id (map timeout_ctx ks) = ks.
Proof.
  induction ks as [|k ks IH]; [reflexivity|]. cbn. rewrite IH. reflexivity.
Qed.

Section CollectStatsClaims.
Context {W : Type} `{Database W} `{Manager W}.

Lemma range_instances_skip (l1 l2 : list Instance) (i : Instance) :
  ContainerID i = "" →
  ∀ s : State W, range_instances (l1 ++ i :: l2) s = range_instances (l1 ++ l2) s.
Proof.
  intros He. induction l1 as [|j l1 IH]; intros s.
  - cbn [app]. rewrite range_instances_cons, (collect_instance_skip i s He).
    cbn. destruct (range_instances l2 s) as [[[] s2] e2]. reflexivity.
  - cbn [app]. rewrite !range_instances_cons. cbn zeta. rewrite IH. reflexivity.
Qed.

(** C10: [collectStats] returns exactly the error of the registry query, so
    it returns a non-nil error if and only if that query fails; when the
    query succeeds it returns nil whatever the stats calls return. *)
Theorem collectStats_error_is_registry_error (c : StatsCollector) (s : State W) :
  result (collectStats c s) = (GetRunningInstances (world s)).1.2 ∧
  (result (collectStats c s) ≠ None ↔ (GetRunningInstances (world s)).1.2 ≠ None).
Proof.
  assert (Heq : result (collectStats c s) = (GetRunningInstances (world s)).1.2).
  { destruct (GetRunningInstances (world s)) as [[l [e|]] w'] eqn:Hq.
    - rewrite (collectStats_failed c s l e w' Hq). reflexivity.
    - rewrite (collectStats_ok c s l w' Hq). reflexivity. }
  split; [exact Heq|]. rewrite Heq. reflexivity.
Qed.

(** C2: when the registry query of a tick fails, the tick consists of that
    one query and the log line of [run]: no stats call is made, no context
    is created, the query is not retried, and [collectStats] returns the
    error. *)
Theorem registry_failure_skips_tick (c : StatsCollector) (s : State W) l e w' :
  GetRunningInstances (world s) = ((l, Some e), w') →
  collectStats c s =
    (Some e, mkState w' (ctx_next s) (ctx_done s), [EvQuery (Some e)]) ∧
  events (tick c s) =
    [EvQuery (Some e);
     EvLog ErrorLevel "Failed to collect stats" [("error", FErr e)]] ∧
  fetched (events (tick c s)) = [] ∧
  created (events (tick c s)) = [] ∧
  queries (events (tick c s)) = [Some e].
Proof.
  intros Hq. pose proof (collectStats_failed c s l e w' Hq) as Hc.
  assert (Ht : events (tick c s) =
    [EvQuery (Some e);
     EvLog ErrorLevel "Failed to collect stats" [("error", FErr e)]]).
  { unfold tick, bind. rewrite Hc. reflexivity. }
  rewrite Ht. repeat split. exact Hc.
Qed.

(** C3: an instance whose container identifier is empty is skipped
    silently: the tick makes the calls, in the states, that it makes for
    the list without that instance, so no stats call is issued for it. *)
Theorem empty_container_skipped (c : StatsCollector) (s : State W) l1 i l2 w' :
  GetRunningInstances (world s) = ((l1 ++ i :: l2, None), w') →
  ContainerID i = "" →
  let s1 := mkState w' (ctx_next s) (ctx_done s) in
  collect_instance i s1 = (tt, s1, []) ∧
  events (collectStats c s) =
    tick_header (l1 ++ i :: l2) ++ events (range_instances (l1 ++ l2) s1) ∧
  final (collectStats c s) = final (range_instances (l1 ++ l2) s1) ∧
  fetched (events (collectStats c s)) = map ID (provisioned (l1 ++ l2)).
Proof.
  intros Hq He s1. rewrite (collectStats_ok c s _ w' Hq). cbn zeta.
  fold s1. rewrite (range_instances_skip l1 l2 i He s1).
  split; [apply collect_instance_skip, He|].
  split; [reflexivity|]. split; [reflexivity|].
  unfold events at 1. cbn [snd]. unfold fetched. rewrite omap_app. cbn [omap tick_header].
  apply (tick_body_fetched (ctx_next s1)), range_instances_body.
Qed.

(** C1: when the registry query succeeds, every instance of the list that
    has a container gets its whole block (context, fetch, log on failure,
    cancel) and the events after that block are a complete loop over the
    instances that follow, whatever the fetch returned: a failed fetch is
    logged with the instance and container identifiers and the loop goes
    on. *)
Theorem fetch_failure_isolated (c : StatsCollector) (s : State W) l1 i l2 w' :
  GetRunningInstances (world s) = ((l1 ++ i :: l2, None), w') →
  ContainerID i ≠ "" →
  let k := (ctx_next s + length (provisioned l1))%nat in
  ∃ e1 d r e2,
    events (collectStats c s) =
      tick_header (l1 ++ i :: l2) ++ e1 ++
      fetch_block i (timeout_ctx k) d r ++ e2 ∧
    tick_body (ctx_next s) l1 e1 ∧
    tick_body (S k) l2 e2 ∧
    fetched e2 = map ID (provisioned l2) ∧
    (∀ err, r = Some err →
       fetch_block i (timeout_ctx k) d r =
         [EvWithTimeout (timeout_ctx k);
          EvFetch (timeout_ctx k) d (ID i) (Some err);
          EvLog ErrorLevel "Failed to collect stats for instance"
            [("instance_id", FID (ID i));
             ("container_id", FStr (ContainerID i));
             ("error", FErr err)];
          EvCancel k]) ∧
    result (collectStats c s) = None.
Proof.
  intros Hq Hn k. rewrite (collectStats_ok c s _ w' Hq). cbn zeta.
  set (s1 := mkState w' (ctx_next s) (ctx_done s)).
  pose proof (range_instances_body (l1 ++ i :: l2) s1) as Hb.
  apply tick_body_app_inv in Hb as (e1 & e' & Hev & Hb1 & Hb2).
  apply (tick_body_cons_inv _ _ _ _ Hn) in Hb2 as (d & r & e2 & He' & Hb').
  exists e1, d, r, e2. cbn [ctx_next s1] in *. fold k in Hb', He' |- *.
  split; [unfold events at 1; cbn [snd]; rewrite Hev, He'; reflexivity|].
  split; [exact Hb1|]. split; [exact Hb'|].
  split; [exact (tick_body_fetched _ _ _ Hb')|].
  split; [intros err ->; reflexivity|reflexivity].
Qed.

(** C6: the stats calls of a tick are made for the instances that have a
    container, in the order of the registry's list; for the list
    [1 "c1"; 2 ""; 3 "c3"] these are exactly two calls, for 1 and then
    for 3. *)
Theorem fetches_follow_registry_order (c : StatsCollector) (s : State W) l w' :
  GetRunningInstances (world s) = ((l, None), w') →
  fetched (events (collectStats c s)) = map ID (provisioned l) ∧
  (l = three_instances →
     fetched (events (collectStats c s)) = [1%N; 3%N] ∧
     length (fetched (events (collectStats c s))) = 2%nat).
Proof.
  intros Hq.
  assert (Hf : fetched (events (collectStats c s)) = map ID (provisioned l)).
  { rewrite (collectStats_ok c s l w' Hq). cbn zeta.
    unfold events at 1. cbn [snd]. unfold fetched. rewrite omap_app.
    cbn [omap tick_header].
    apply (tick_body_fetched (ctx_next s)).
    apply (range_instances_body l (mkState w' (ctx_next s) (ctx_done s))). }
  split; [exact Hf|]. intros ->. rewrite Hf. split; reflexivity.
Qed.

(** C7: in a tick whose query succeeds, each instance with a container is
    fetched under a context created for that fetch alone: directly below
    the background context, with a timeout of five seconds, of an identity
    no earlier context has, not cancelled when the fetch starts, and
    cancelled after it. These contexts are pairwise distinct and none is
    below another, so cancelling one leaves the others as they were. *)
Theorem fetch_contexts_independent (c : StatsCollector) (s : State W) l w' :
  GetRunningInstances (world s) = ((l, None), w') →
  ctx_wf s →
  let evs := events (collectStats c s) in
  (∃ body, evs = tick_header l ++ body ∧ tick_body (ctx_next s) l body) ∧
  fetch_ctxs evs = map timeout_ctx (seq (ctx_next s) (length (provisioned l))) ∧
  created evs = fetch_ctxs evs ∧
  cancels evs = map ctx_id (fetch_ctxs evs) ∧
  Forall fetch_live evs ∧
  (∀ c1, c1 ∈ fetch_ctxs evs →
     ctx_timeout c1 = Some (5 * Second) ∧
     ctx_above c1 = [ctx_id Background] ∧
     (ctx_next s ≤ ctx_id c1)%nat) ∧
  NoDup (map ctx_id (fetch_ctxs evs)) ∧
  (∀ c1 c2 done, c1 ∈ fetch_ctxs evs → c2 ∈ fetch_ctxs evs → c1 ≠ c2 →
     ctx_cancelled ({[ctx_id c1]} ∪ done) c2 = ctx_cancelled done c2) ∧
  ctx_wf (final (collectStats c s)).
Proof.
  intros Hq Hwf evs. subst evs.
  rewrite (collectStats_ok c s l w' Hq). cbn zeta.
  set (s1 := mkState w' (ctx_next s) (ctx_done s)).
  assert (Hwf1 : ctx_wf s1) by exact Hwf.
  pose proof (range_instances_body l s1) as Hb. cbn [ctx_next s1] in Hb.
  destruct (range_instances_live l s1 Hwf1) as [Hlive Hwf2].
  destruct (tick_body_ctxs _ _ _ Hb) as (Hc1 & Hc2 & Hc3).
  change (events (None, final (range_instances l s1),
                  tick_header l ++ events (range_instances l s1)))
    with (tick_header l ++ events (range_instances l s1)).
  change (final (None, final (range_instances l s1),
                 tick_header l ++ events (range_instances l s1)))
    with (final (range_instances l s1)).
  assert (Hfc : fetch_ctxs (tick_header l ++ events (range_instances l s1)) =
                fetch_ctxs (events (range_instances l s1))).
  { unfold fetch_ctxs. rewrite omap_app. reflexivity. }
  assert (Hin : ∀ c1, c1 ∈ fetch_ctxs (events (range_instances l s1)) →
            ∃ k, c1 = timeout_ctx k ∧ (ctx_next s ≤ k)%nat).
  { intros c1. rewrite Hc1. intros Hc.
    apply list_elem_of_fmap in Hc as (k & -> & Hk).
    exists k. split; [reflexivity|]. apply elem_of_seq in Hk. lia. }
  rewrite !Hfc.
  split; [eexists; split; [reflexivity|exact Hb]|].
  split; [exact Hc1|].
  split; [unfold created; rewrite omap_app; exact Hc2|].
  split; [unfold cancels; rewrite omap_app; exact Hc3|].
  split; [apply Forall_app; split; [repeat constructor|exact Hlive]|].
  split.
  { intros c1 Hc. destruct (Hin c1 Hc) as (k & -> & Hk).
    repeat split. exact Hk. }
  split.
  { rewrite Hc1, timeout_ctx_ids. apply NoDup_seq. }
  split; [|exact Hwf2].
  intros c1 c2 done Hi1 Hi2 Hne.
  destruct (Hin c1 Hi1) as (k1 & -> & Hk1).
  destruct (Hin c2 Hi2) as (k2 & -> & Hk2).
  apply cancel_elsewhere. cbn.
  destruct Hwf as [Hpos _].
  intros Hel. apply elem_of_cons in Hel as [Hel|Hel].
  - apply Hne. rewrite Hel. reflexivity.
  - apply elem_of_cons in Hel as [Hel|Hel]; [lia|].
    apply elem_of_nil in Hel. exact Hel.
Qed.

End CollectStatsClaims.

(** ** The loop of [run] *)

Lemma control_no_stop (sched : list Wake) :
  ∀ k, ct_outcome k = Running → ct_chan k ≠ ChanClosed → StopCall ∉ sched →
       ct_outcome (foldl control_step k sched) = Running ∧
       ct_chan (foldl control_step k sched) ≠ ChanClosed.
Proof.
  induction sched as [|wk sched IH]; intros k Ho Hc Hn.
  - split; assumption.
  - cbn [foldl]. apply not_elem_of_cons in Hn as [Hne Hn].
    apply IH; [| |exact Hn]; unfold control_step, control_select; rewrite Ho;
      destruct wk as [| |b]; try congruence; cbn; try assumption;
      destruct (ct_chan k) eqn:Hch; try congruence;
      destruct (tk_pending (ct_ticker k)); cbn; rewrite ?Hch; congruence.
Qed.

Lemma control_returned_closed (sched : list Wake) :
  ∀ k, (ct_outcome k = Returned → ct_chan k = ChanClosed) →
       ct_outcome (foldl control_step k sched) = Returned →
       ct_chan (foldl control_step k sched) = ChanClosed.
Proof.
  induction sched as [|wk sched IH]; intros k Hk.
  - exact Hk.
  - cbn [foldl]. apply IH.
    unfold control_step, control_select.
    destruct (ct_outcome k) eqn:Ho; destruct wk as [| |b]; cbn;
      rewrite ?Ho; try exact Hk; try discriminate;
      destruct (ct_chan k) eqn:Hc; cbn;
      try destruct (tk_pending (ct_ticker k)); try destruct b; cbn;
      rewrite ?Hc, ?Ho; try congruence;
      specialize (Hk eq_refl); congruence.
Qed.

Section RunClaims.
Context {W : Type} `{Database W} `{Manager W}.

Lemma tick_calls (c : StatsCollector) (s : State W) :
  length (queries (events (tick c s))) = 1%nat ∧ prunes (events (tick c s)) = [].
Proof.
  destruct (GetRunningInstances (world s)) as [[l [e|]] w'] eqn:Hq.
  - unfold tick, bind. rewrite (collectStats_failed c s l e w' Hq).
    split; reflexivity.
  - unfold tick, bind. rewrite (collectStats_ok c s l w' Hq). cbn zeta.
    set (s1 := mkState w' (ctx_next s) (ctx_done s)).
    destruct (tick_body_calls _ _ _ (range_instances_body l s1)) as [Hq1 Hp1].
    unfold events at 1 3. cbn [snd ret].
    unfold queries, prunes in *. rewrite !omap_app. cbn [omap tick_header].
    rewrite Hq1, Hp1. split; reflexivity.
Qed.

Lemma step_control (l : Loop W) (wk : Wake) :
  control_of (step l wk) = control_step (control_of l) wk.
Proof.
  destruct l as [c tk st evs o].
  destruct o; destruct wk as [| |b]; try reflexivity.
  - unfold step, control_step, Stop, control_of. cbn.
    destruct (close (stopChan c)); reflexivity.
  - unfold step, control_step, select, control_select, control_of. cbn.
    destruct (tk_pending tk && (negb (recv_ready (stopChan c)) || b)).
    + cbn. f_equal. unfold queries. rewrite omap_app, length_app.
      destruct (tick_calls c st) as [Hq _].
      unfold queries in Hq. rewrite Hq. lia.
    + destruct (recv_ready (stopChan c)); [|reflexivity].
      cbn. f_equal. unfold queries. rewrite omap_app, length_app. cbn. lia.
  - unfold step, control_step, Stop, control_of. cbn.
    destruct (close (stopChan c)); reflexivity.
Qed.

Lemma foldl_step_control (sched : list Wake) :
  ∀ l : Loop W,
    control_of (foldl step l sched) = foldl control_step (control_of l) sched.
Proof.
  induction sched as [|wk sched IH]; intros l; [reflexivity|].
  cbn [foldl]. rewrite IH, step_control. reflexivity.
Qed.

Lemma run_start_control (c : StatsCollector) (s : State W) :
  control_of (run_start c s) = control_start c.
Proof.
  unfold run_start, control_start.
  destruct (NewTicker (collectionRate c)); [reflexivity|].
  unfold control_of, exec. cbn. f_equal.
  unfold startup, bind, cleanupOldStats, call_PruneResourceUsage.
  destruct (PruneResourceUsage _ _) as [[e|] w']; reflexivity.
Qed.

Lemma run_control (c : StatsCollector) (s : State W) (sched : list Wake) :
  control_of (run c s sched) = foldl control_step (control_start c) sched.
Proof. unfold run. rewrite foldl_step_control, run_start_control. reflexivity. Qed.

Lemma step_events (l : Loop W) (wk : Wake) :
  ∃ evs, lp_events (step l wk) = lp_events l ++ evs ∧ prunes evs = [].
Proof.
  assert (Hnil : ∃ evs, lp_events l = lp_events l ++ evs ∧ prunes evs = []).
  { exists []. rewrite app_nil_r. split; reflexivity. }
  unfold step. destruct (lp_outcome l); destruct wk as [| |b];
    try exact Hnil;
    try (unfold Stop; destruct (close _); exact Hnil).
  unfold select.
  destruct (tk_pending (lp_ticker l) && _).
  - eexists. split; [reflexivity|]. apply tick_calls.
  - destruct (recv_ready _); [|exact Hnil].
    eexists. split; reflexivity.
Qed.

Lemma foldl_step_events (sched : list Wake) :
  ∀ l : Loop W,
    ∃ evs, lp_events (foldl step l sched) = lp_events l ++ evs ∧ prunes evs = [].
Proof.
  induction sched as [|wk sched IH]; intros l.
  - exists []. rewrite app_nil_r. split; reflexivity.
  - cbn [foldl]. destruct (IH (step l wk)) as (e2 & -> & Hp2).
    destruct (step_events l wk) as (e1 & -> & Hp1).
    exists (e1 ++ e2). rewrite app_assoc. split; [reflexivity|].
    unfold prunes in *. rewrite omap_app, Hp1, Hp2. reflexivity.
Qed.

Lemma step_finished (l : Loop W) (wk : Wake) :
  lp_outcome l ≠ Running →
  lp_events (step l wk) = lp_events l ∧
  lp_state (step l wk) = lp_state l ∧
  lp_outcome (step l wk) ≠ Running.
Proof.
  intros Hf. unfold step. destruct (lp_outcome l) eqn:Ho; [contradiction| |].
  - destruct wk as [| |b]; cbn; rewrite ?Ho; try (repeat split; congruence).
    unfold Stop. destruct (close _); cbn; rewrite ?Ho; repeat split; congruence.
  - rewrite Ho. repeat split; congruence.
Qed.

Lemma foldl_step_finished (sched : list Wake) :
  ∀ l : Loop W, lp_outcome l ≠ Running →
    lp_events (foldl step l sched) = lp_events l ∧
    lp_state (foldl step l sched) = lp_state l.
Proof.
  induction sched as [|wk sched IH]; intros l Hf; [split; reflexivity|].
  cbn [foldl]. destruct (step_finished l wk Hf) as (He & Hs & Ho).
  destruct (IH (step l wk) Ho) as [He' Hs']. rewrite He', Hs'. split; assumption.
Qed.

(** Every state the loop reaches is well formed, so the hypothesis of the
    statement on contexts holds at each tick of an execution. *)
Lemma tick_ctx_wf (c : StatsCollector) (s : State W) :
  ctx_wf s → ctx_wf (final (tick c s)).
Proof.
  intros Hwf. destruct (GetRunningInstances (world s)) as [[l [e|]] w'] eqn:Hq.
  - unfold tick, bind. rewrite (collectStats_failed c s l e w' Hq). exact Hwf.
  - unfold tick, bind. rewrite (collectStats_ok c s l w' Hq). cbn zeta.
    apply (range_instances_live l (mkState w' (ctx_next s) (ctx_done s))).
    exact Hwf.
Qed.

Lemma run_ctx_wf (c : StatsCollector) (s : State W) (sched : list Wake) :
  ctx_wf s → ctx_wf (lp_state (run c s sched)).
Proof.
  intros Hwf. unfold run.
  assert (Hstart : ctx_wf (lp_state (run_start c s))).
  { unfold run_start. destruct (NewTicker (collectionRate c)); [exact Hwf|].
    unfold exec, startup, bind, cleanupOldStats, call_PruneResourceUsage. cbn.
    destruct (PruneResourceUsage _ _) as [[e|] w']; exact Hwf. }
  revert Hstart. generalize (run_start c s).
  induction sched as [|wk sched IH]; intros l Hl; [exact Hl|].
  cbn [foldl]. apply IH.
  unfold step. destruct (lp_outcome l); destruct wk as [| |b]; try exact Hl;
    try (unfold Stop; destruct (close _); exact Hl).
  unfold select. destruct (tk_pending (lp_ticker l) && _).
  - apply tick_ctx_wf, Hl.
  - destruct (recv_ready _); exact Hl.
Qed.

Lemma run_start_events (c : StatsCollector) (s : State W) :
  0 < collectionRate c →
  let p := PruneResourceUsage (maxPerInstance c) (world s) in
  lp_outcome (run_start c s) = Running ∧
  lp_events (run_start c s) =
    EvPrune (maxPerInstance c) p.1 ::
    match p.1 with
    | Some e =>
        [EvLog ErrorLevel "Failed to clean up old stats" [("error", FErr e)]]
    | None => []
    end.
Proof.
  intros Hpos p. subst p. unfold run_start, NewTicker.
  destruct (decide (collectionRate c <= 0)) as [Hle|_]; [lia|].
  unfold exec, startup, bind, cleanupOldStats, call_PruneResourceUsage. cbn.
  destruct (PruneResourceUsage _ _) as [[e|] w']; split; reflexivity.
Qed.

Lemma startup_prunes (c : StatsCollector) (s : State W) (sched : list Wake) :
  0 < collectionRate c →
  prunes (lp_events (run c s sched)) = [maxPerInstance c] ∧
  ∃ rest,
    lp_events (run c s sched) =
      EvPrune (maxPerInstance c)
        (PruneResourceUsage (maxPerInstance c) (world s)).1 :: rest ∧
    prunes rest = [] ∧
    (∀ e, (PruneResourceUsage (maxPerInstance c) (world s)).1 = Some e →
       ∃ rest', rest =
         EvLog ErrorLevel "Failed to clean up old stats" [("error", FErr e)]
         :: rest').
Proof.
  intros Hpos.
  destruct (run_start_events c s Hpos) as [Ho He].
  set (p := PruneResourceUsage (maxPerInstance c) (world s)) in *.
  destruct (foldl_step_events sched (run_start c s)) as (evs & Hev & Hp).
  fold (run c s sched) in Hev. rewrite He in Hev. cbn [app] in Hev.
  assert (Hrest : prunes (match p.1 with
                          | Some e =>
                              [EvLog ErrorLevel "Failed to clean up old stats"
                                 [("error", FErr e)]]
                          | None => []
                          end ++ evs) = []).
  { unfold prunes in *. rewrite omap_app, Hp. destruct (p.1); reflexivity. }
  split.
  { rewrite Hev. change (prunes (EvPrune ?n ?r :: ?t)) with (n :: prunes t).
    rewrite Hrest. reflexivity. }
  eexists. split; [exact Hev|]. split; [exact Hrest|].
  intros e Hpe. rewrite Hpe. eexists. reflexivity.
Qed.

(** C4, as amended: when the collection interval is positive (otherwise
    [time.NewTicker] panics before anything else happens), the first thing
    [run] does is one pruning call with the collector's cap; no later
    event of the execution is a pruning call, so every tick comes after it
    and none repeats it; a pruning failure is logged and [run] enters its
    loop all the same, where the ticks that execute are those the schedule
    alone determines. *)
Theorem prune_once_at_startup (c : StatsCollector) (s : State W) (sched : list Wake) :
  0 < collectionRate c →
  let p := PruneResourceUsage (maxPerInstance c) (world s) in
  ∃ rest,
    lp_events (run c s sched) = EvPrune (maxPerInstance c) p.1 :: rest ∧
    prunes rest = [] ∧
    prunes (lp_events (run c s sched)) = [maxPerInstance c] ∧
    (∀ e, p.1 = Some e →
       ∃ rest', rest =
         EvLog ErrorLevel "Failed to clean up old stats" [("error", FErr e)]
         :: rest') ∧
    lp_outcome (run_start c s) = Running ∧
    control_of (run c s sched) = foldl control_step (control_start c) sched.
Proof.
  intros Hpos p.
  destruct (startup_prunes c s sched Hpos)
    as (Hp & rest & Hev & Hrest & Hlog).
  exists rest. split; [exact Hev|]. split; [exact Hrest|].
  split; [exact Hp|]. split; [exact Hlog|].
  split; [apply (run_start_events c s Hpos)|apply run_control].
Qed.

(** C5, as amended: with a positive collection interval, the outcome of
    [run], the channels and the number of ticks are those the schedule
    alone determines, so no failure of the registry, of a stats call or of
    the pruning ends the loop; the loop of a collector whose channel is
    open never leaves its running state under a schedule without a call of
    [Stop]; once the loop has returned, which it only does with the
    channel closed, no later wake-up adds an event. After [Stop] was
    called, a [select] returns unless a tick is pending and the [select]
    picks it. *)
Theorem loop_ends_only_by_stop (c : StatsCollector) (s : State W) (sched : list Wake) :
  0 < collectionRate c →
  let l := run c s sched in
  control_of l = foldl control_step (control_start c) sched ∧
  (stopChan c ≠ ChanClosed → StopCall ∉ sched → lp_outcome l = Running) ∧
  (lp_outcome l = Returned →
     stopChan (lp_collector l) = ChanClosed ∧
     ∀ post, lp_events (run c s (sched ++ post)) = lp_events l ∧
             lp_state (run c s (sched ++ post)) = lp_state l) ∧
  (lp_outcome l = Running → stopChan (lp_collector l) = ChanClosed →
     ∀ pick, lp_outcome (step l (Select pick)) = Returned ∨
             (tk_pending (lp_ticker l) = true ∧ pick = true)).
Proof.
  intros Hpos l. pose proof (run_control c s sched) as Hctl. fold l in Hctl.
  assert (Hstart : ct_outcome (control_start c) = Running ∧
                   ct_chan (control_start c) = stopChan c).
  { unfold control_start, NewTicker.
    destruct (decide (collectionRate c <= 0)); [lia|]. split; reflexivity. }
  destruct Hstart as [Hso Hsc].
  split; [exact Hctl|]. split; [|split].
  - intros Hopen Hns.
    change (lp_outcome l) with (ct_outcome (control_of l)). rewrite Hctl.
    apply control_no_stop; [exact Hso|rewrite Hsc; exact Hopen|exact Hns].
  - intros Hret. split.
    + change (stopChan (lp_collector l)) with (ct_chan (control_of l)).
      rewrite Hctl. apply control_returned_closed.
      * rewrite Hso. discriminate.
      * rewrite <- Hctl. exact Hret.
    + intros post. unfold run. rewrite foldl_app. fold (run c s sched). fold l.
      apply foldl_step_finished. rewrite Hret. discriminate.
  - intros Hrun Hclosed pick. unfold step, select. rewrite Hrun, Hclosed. cbn.
    destruct (tk_pending (lp_ticker l)); destruct pick; cbn; auto.
Qed.

(** C8: a collector made by [NewStatsCollector] has the cap 100;
    [cleanupOldStats] is one call of the pruning operation with that cap;
    and the pruning calls of an execution of [run] are that one call at
    startup (none when the interval is not positive and the ticker cannot
    be created). *)
Theorem pruning_cap_is_default (rate : Duration) (s : State W) (sched : list Wake) :
  maxPerInstance (NewStatsCollector rate) = 100 ∧
  cleanupOldStats (NewStatsCollector rate) s =
    (let p := PruneResourceUsage 100 (world s) in
     (p.1, mkState p.2 (ctx_next s) (ctx_done s), [EvPrune 100 p.1])) ∧
  prunes (lp_events (run (NewStatsCollector rate) s sched)) =
    if decide (0 < rate) then [100] else [].
Proof.
  split; [reflexivity|]. split.
  - unfold cleanupOldStats, call_PruneResourceUsage. cbn.
    destruct (PruneResourceUsage 100 (world s)); reflexivity.
  - destruct (decide (0 < rate)) as [Hpos|Hneg].
    + destruct (startup_prunes (NewStatsCollector rate) s sched Hpos)
        as [Hp _]. exact Hp.
    + destruct (foldl_step_events sched (run_start (NewStatsCollector rate) s))
        as (evs & Hev & Hp).
      fold (run (NewStatsCollector rate) s sched) in Hev. rewrite Hev.
      unfold prunes in *. rewrite omap_app, Hp.
      unfold run_start, NewTicker. cbn [collectionRate NewStatsCollector].
      destruct (decide (rate <= 0)); [reflexivity|lia].
Qed.

End RunClaims.

(** C9: [Stop] closes the channel, so it cannot be called twice: on a
    collector made by [NewStatsCollector] the first call succeeds and the
    second panics on the closed channel, and on any collector a call that
    follows a successful one panics in that way. *)
Theorem second_Stop_panics (rate : Duration) (c : StatsCollector) :
  (∃ c1, Stop (NewStatsCollector rate) = inr c1 ∧
         stopChan c1 = ChanClosed ∧
         Stop c1 = inl CloseOfClosedChannel) ∧
  match Stop c with
  | inr c1 => Stop c1 = inl CloseOfClosedChannel
  | inl _ => True
  end.
Proof.
  split.
  - eexists. repeat split.
  - unfold Stop. destruct (stopChan c); cbn; auto.
Qed.

(** ** The claims at concrete executions *)

Lemma init_state_wf {W} (w : W) : ctx_wf (init_state w).
Proof.
  split; [cbn; lia|]. intros k Hk. cbn in Hk. apply elem_of_empty in Hk. contradiction.
Qed.

Lemma fetch_failure_isolated_witness :
  ∃ e1 d r e2,
    events (collectStats every_second (init_state first_fails)) =
      tick_header three_instances ++ e1 ++
      fetch_block instance1 (timeout_ctx 1) d r ++ e2 ∧
    tick_body 1 [] e1 ∧
    tick_body 2 [instance2; instance3] e2 ∧
    fetched e2 = [3%N] ∧
    (∀ err, r = Some err →
       fetch_block instance1 (timeout_ctx 1) d r =
         [EvWithTimeout (timeout_ctx 1);
          EvFetch (timeout_ctx 1) d 1%N (Some err);
          EvLog ErrorLevel "Failed to collect stats for instance"
            [("instance_id", FID 1%N); ("container_id", FStr "c1");
             ("error", FErr err)];
          EvCancel 1]) ∧
    result (collectStats every_second (init_state first_fails)) = None.
Proof.
  refine (fetch_failure_isolated every_second (init_state first_fails)
            [] instance1 [instance2; instance3] first_fails _ _).
  - reflexivity.
  - discriminate.
Defined.

Lemma registry_failure_skips_tick_witness :
  GetRunningInstances (world (init_state db_down)) =
    (([], Some (Err "connection refused")), db_down) ∧
  collectStats every_second (init_state db_down) =
    (Some (Err "connection refused"), init_state db_down,
     [EvQuery (Some (Err "connection refused"))]) ∧
  events (tick every_second (init_state db_down)) =
    [EvQuery (Some (Err "connection refused"));
     EvLog ErrorLevel "Failed to collect stats"
       [("error", FErr (Err "connection refused"))]] ∧
  fetched (events (tick every_second (init_state db_down))) = [] ∧
  created (events (tick every_second (init_state db_down))) = [] ∧
  queries (events (tick every_second (init_state db_down))) =
    [Some (Err "connection refused")].
Proof.
  split; [reflexivity|].
  refine (registry_failure_skips_tick every_second (init_state db_down)
            [] (Err "connection refused") db_down _).
  reflexivity.
Defined.

Lemma empty_container_skipped_witness :
  ContainerID instance2 = "" ∧
  collect_instance instance2 (init_state first_fails) =
    (tt, init_state first_fails, []) ∧
  events (collectStats every_second (init_state first_fails)) =
    tick_header three_instances ++
    events (range_instances [instance1; instance3] (init_state first_fails)) ∧
  final (collectStats every_second (init_state first_fails)) =
    final (range_instances [instance1; instance3] (init_state first_fails)) ∧
  fetched (events (collectStats every_second (init_state first_fails))) =
    [1%N; 3%N].
Proof.
  split; [reflexivity|].
  refine (empty_container_skipped every_second (init_state first_fails)
            [instance1] instance2 [instance3] first_fails _ _);
    reflexivity.
Defined.

Lemma fetches_follow_registry_order_witness :
  GetRunningInstances (world (init_state first_fails)) =
    ((three_instances, None), first_fails) ∧
  fetched (events (collectStats every_second (init_state first_fails))) =
    [1%N; 3%N] ∧
  length (fetched (events (collectStats every_second (init_state first_fails)))) =
    2%nat.
Proof.
  split; [reflexivity|].
  refine (proj2 (fetches_follow_registry_order every_second
                   (init_state first_fails) three_instances first_fails _) _);
    reflexivity.
Defined.

Lemma fetch_contexts_independent_witness :
  ctx_wf (init_state first_fails) ∧
  let evs := events (collectStats every_second (init_state first_fails)) in
  (∃ body, evs = tick_header three_instances ++ body ∧
           tick_body 1 three_instances body) ∧
  fetch_ctxs evs = [timeout_ctx 1; timeout_ctx 2] ∧
  created evs = fetch_ctxs evs ∧
  cancels evs = map ctx_id (fetch_ctxs evs) ∧
  Forall fetch_live evs ∧
  (∀ c1, c1 ∈ fetch_ctxs evs →
     ctx_timeout c1 = Some 5000000000 ∧
     ctx_above c1 = [0%nat] ∧
     (1 ≤ ctx_id c1)%nat) ∧
  NoDup (map ctx_id (fetch_ctxs evs)) ∧
  (∀ c1 c2 done, c1 ∈ fetch_ctxs evs → c2 ∈ fetch_ctxs evs → c1 ≠ c2 →
     ctx_cancelled ({[ctx_id c1]} ∪ done) c2 = ctx_cancelled done c2) ∧
  ctx_wf (final (collectStats every_second (init_state first_fails))).
Proof.
  split; [apply init_state_wf|].
  refine (fetch_contexts_independent every_second (init_state first_fails)
            three_instances first_fails _ _).
  - reflexivity.
  - apply init_state_wf.
Defined.

Lemma prune_once_at_startup_witness :
  0 < collectionRate every_second ∧
  ∃ rest,
    lp_events (run every_second (init_state db_down) tick_then_stop) =
      EvPrune 100 (Some (Err "connection refused")) :: rest ∧
    prunes rest = [] ∧
    prunes (lp_events (run every_second (init_state db_down) tick_then_stop)) =
      [100] ∧
    (∀ e, Some (Err "connection refused") = Some e →
       ∃ rest', rest =
         EvLog ErrorLevel "Failed to clean up old stats" [("error", FErr e)]
         :: rest') ∧
    lp_outcome (run_start every_second (init_state db_down)) = Running ∧
    control_of (run every_second (init_state db_down) tick_then_stop) =
      foldl control_step (control_start every_second) tick_then_stop.
Proof.
  split; [reflexivity|].
  refine (prune_once_at_startup every_second (init_state db_down)
            tick_then_stop _).
  reflexivity.
Defined.

Lemma loop_ends_only_by_stop_witness :
  0 < collectionRate every_second ∧
  let l := run every_second (init_state first_fails) tick_then_stop in
  control_of l = foldl control_step (control_start every_second) tick_then_stop ∧
  (stopChan every_second ≠ ChanClosed → StopCall ∉ tick_then_stop →
     lp_outcome l = Running) ∧
  (lp_outcome l = Returned →
     stopChan (lp_collector l) = ChanClosed ∧
     ∀ post,
       lp_events (run every_second (init_state first_fails)
                    (tick_then_stop ++ post)) = lp_events l ∧
       lp_state (run every_second (init_state first_fails)
                   (tick_then_stop ++ post)) = lp_state l) ∧
  (lp_outcome l = Running → stopChan (lp_collector l) = ChanClosed →
     ∀ pick, lp_outcome (step l (Select pick)) = Returned ∨
             (tk_pending (lp_ticker l) = true ∧ pick = true)).
Proof.
  split; [reflexivity|].
  refine (loop_ends_only_by_stop every_second (init_state first_fails)
            tick_then_stop _).
  reflexivity.
Defined.

(** The schedule [tick_then_stop] does end in a return, after one tick. *)
Lemma tick_then_stop_returns :
  lp_outcome (run every_second (init_state first_fails) tick_then_stop) = Returned ∧
  queries (lp_events (run every_second (init_state first_fails) tick_then_stop)) =
    [None].
Proof. split; vm_compute; reflexivity. Qed.

(** C4 as stated fails for a collector whose interval is not positive:
    [time.NewTicker] panics, and the execution makes no pruning call. *)
Lemma no_pruning_without_ticker :
  lp_outcome (run no_interval (init_state first_fails) tick_then_stop) =
    Crashed NonPositiveTickerInterval ∧
  prunes (lp_events (run no_interval (init_state first_fails) tick_then_stop)) = [].
Proof. split; vm_compute; reflexivity. Qed.

(** C5 as stated fails when [Stop] is called while a tick is pending: the
    channel is closed and no tick has run, and the next [select] may still
    take the tick, which queries the registry and fetches the stats of
    instances 1 and 3. *)
Lemma tick_runs_after_Stop :
  stopChan (lp_collector
              (run every_second (init_state first_fails) [TimerFire; StopCall])) =
    ChanClosed ∧
  queries (lp_events
             (run every_second (init_state first_fails) [TimerFire; StopCall])) =
    [] ∧
  queries (lp_events (run every_second (init_state first_fails) stop_races_tick)) =
    [None] ∧
  fetched (lp_events (run every_second (init_state first_fails) stop_races_tick)) =
    [1%N; 3%N] ∧
  lp_outcome (run every_second (init_state first_fails) stop_races_tick) = Running.
Proof. repeat split; vm_compute; reflexivity. Qed.



(** * Properties of the DNS clean-up script *)

(** ** Strings *)

Lemma append_nil (s : string) : "" +:+ s = s.
Proof. reflexivity. Qed.

Lemma append_cons (c : ascii) (p s : string) :
  String c p +:+ s = String c (p +:+ s).
Proof. reflexivity. Qed.

Lemma append_nil_r (s : string) : s +:+ "" = s.
Proof. induction s as [|c s IH]; [reflexivity|]. rewrite append_cons, IH. reflexivity. Qed.

Lemma append_assoc (a b c : string) : (a +:+ b) +:+ c = a +:+ (b +:+ c).
Proof.
  induction a as [|x a IH]; [reflexivity|]. rewrite !append_cons, IH. reflexivity.
Qed.

Lemma startswith_nil (s : string) : startswith s "" = true.
Proof. destruct s; reflexivity. Qed.

Lemma startswith_spec (p : string) :
  ∀ s, startswith s p = true ↔ ∃ q, s = p +:+ q.
Proof.
  induction p as [|a p IH]; intros s.
  - destruct s; cbn; split; eauto.
  - destruct s as [|b s]; cbn.
    + split; [discriminate|]. intros [q Hq]. discriminate.
    + rewrite andb_true_iff, IH. split.
      * intros [Hab [q ->]]. apply Ascii.eqb_eq in Hab as ->. eauto.
      * intros [q Hq]. rewrite append_cons in Hq. injection Hq as -> ->.
        split; [apply Ascii.eqb_refl|eauto].
Qed.

Lemma endswith_spec (suffix : string) :
  ∀ s, endswith s suffix = true ↔ ∃ p, s = p +:+ suffix.
Proof.
  induction s as [|c s IH]; cbn [endswith].
  - destruct (String.eqb_spec "" suffix) as [<-|Hne].
    + split; [exists ""; reflexivity|reflexivity].
    + split; [discriminate|]. intros [p Hp].
      destruct p; [rewrite append_nil in Hp|rewrite append_cons in Hp]; congruence.
  - destruct (String.eqb_spec (String c s) suffix) as [<-|Hne].
    + split; [exists ""; reflexivity|reflexivity].
    + rewrite IH. split.
      * intros [p ->]. exists (String c p). reflexivity.
      * intros [p Hp].
        destruct p as [|c' p]; [rewrite append_nil in Hp; congruence|].
        rewrite append_cons in Hp. injection Hp as -> ->. eauto.
Qed.

(** A non-empty text followed by [.docker] starts with [.docker] only if
    the text itself does: no occurrence straddles the two. *)
Lemma startswith_docker_inside (t rest : string) :
  t ≠ "" → startswith (t +:+ ".docker" +:+ rest) ".docker" = true →
  startswith t ".docker" = true.
Proof.
  intros Hne.
  destruct t as [|c1 t]; [contradiction|].
  do 6 (destruct t as [|? t];
        [rewrite ?append_cons, ?append_nil; cbn [startswith];
         rewrite ?andb_true_iff; intros H;
         repeat match goal with H : _ ∧ _ |- _ => destruct H end;
         repeat match goal with
                | H : Ascii.eqb _ _ = true |- _ => apply Ascii.eqb_eq in H
                end; subst; discriminate|]).
  rewrite !append_cons. cbn [startswith]. rewrite !startswith_nil. auto.
Qed.

Lemma container_name_append (name rest : string) :
  (∀ p q, name ≠ p +:+ ".docker" +:+ q) →
  replace_from ".docker" "" 0 (name +:+ ".docker" +:+ rest) =
    name +:+ replace_from ".docker" "" 0 rest.
Proof.
  induction name as [|c name IH]; intros Hno.
  - rewrite !append_nil, !append_cons, append_nil.
    cbn [replace_from startswith String.length Nat.sub].
    rewrite !Ascii.eqb_refl, startswith_nil. reflexivity.
  - rewrite !(append_cons c name). cbn [replace_from].
    destruct (startswith (String c (name +:+ ".docker" +:+ rest)) ".docker") eqn:Hs.
    + exfalso. rewrite <- append_cons in Hs.
      apply startswith_docker_inside in Hs; [|discriminate].
      apply startswith_spec in Hs as [q Hq]. exact (Hno "" q Hq).
    + f_equal. apply IH. intros p q ->.
      apply (Hno (String c p) q). reflexivity.
Qed.

Lemma append_length (a b : string) :
  String.length (a +:+ b) = (String.length a + String.length b)%nat.
Proof.
  induction a as [|c a IH]; [reflexivity|]. rewrite append_cons. cbn. rewrite IH.
  reflexivity.
Qed.

Lemma append_cancel_r (s : string) : ∀ a b, a +:+ s = b +:+ s → a = b.
Proof.
  induction a as [|x a IH]; intros [|y b] Heq.
  - reflexivity.
  - apply (f_equal String.length) in Heq. rewrite !append_length in Heq.
    cbn in Heq. lia.
  - apply (f_equal String.length) in Heq. rewrite !append_length in Heq.
    cbn in Heq. lia.
  - rewrite !append_cons in Heq. injection Heq as -> Heq. f_equal. apply IH, Heq.
Qed.

(** ** The ordered dictionary of [deduplicate_records] *)

Lemma dict_set_fresh {V} (k : string) (v : V) (d : list (string * V)) :
  k ∉ d.*1 → dict_set k v d = d ++ [(k, v)].
Proof.
  induction d as [|[k' v'] d IH]; intros Hk; [reflexivity|].
  cbn in *. apply not_elem_of_cons in Hk as [Hne Hk].
  destruct (decide (k' = k)) as [->|_]; [contradiction|].
  rewrite (IH Hk). reflexivity.
Qed.

Lemma dict_set_fst {V} (k : string) (v : V) (d : list (string * V)) :
  (dict_set k v d).*1 = if decide (k ∈ d.*1) then d.*1 else d.*1 ++ [k].
Proof.
  induction d as [|[k' v'] d IH]; cbn.
  - destruct (decide (k ∈ [])) as [Hin|_]; [|reflexivity].
    apply elem_of_nil in Hin. contradiction.
  - destruct (decide (k' = k)) as [->|Hne]; cbn.
    + destruct (decide (k ∈ k :: d.*1)) as [_|Hn]; [reflexivity|].
      exfalso. apply Hn. left.
    + rewrite IH. destruct (decide (k ∈ d.*1)) as [Hin|Hnin].
      * destruct (decide (k ∈ k' :: d.*1)) as [_|Hn]; [reflexivity|].
        exfalso. apply Hn. right. exact Hin.
      * destruct (decide (k ∈ k' :: d.*1)) as [Hin|_]; [|reflexivity].
        apply elem_of_cons in Hin as [->|Hin]; contradiction.
Qed.

Lemma dict_set_NoDup {V} (k : string) (v : V) (d : list (string * V)) :
  NoDup d.*1 → NoDup (dict_set k v d).*1.
Proof.
  intros Hnd. rewrite dict_set_fst.
  destruct (decide (k ∈ d.*1)) as [_|Hnin]; [exact Hnd|].
  apply NoDup_app. split; [exact Hnd|]. split.
  - intros x Hx Hx'. apply list_elem_of_singleton in Hx'. subst x. contradiction.
  - apply NoDup_singleton.
Qed.

Lemma elem_of_dict_set {V} (k0 : string) (v : V) (d : list (string * V)) k r :
  NoDup d.*1 →
  (k, r) ∈ dict_set k0 v d ↔ (k = k0 ∧ r = v) ∨ (k ≠ k0 ∧ (k, r) ∈ d).
Proof.
  induction d as [|[k' v'] d IH]; intros Hnd; cbn.
  - rewrite list_elem_of_singleton. split.
    + intros [= -> ->]. left. split; reflexivity.
    + intros [[-> ->]|[_ Hin]]; [reflexivity|]. apply elem_of_nil in Hin. contradiction.
  - cbn in Hnd. apply NoDup_cons in Hnd as [Hk' Hnd].
    destruct (decide (k' = k0)) as [->|Hne].
    + rewrite !elem_of_cons. split.
      * intros [[= -> ->]|Hin]; [left; split; reflexivity|].
        right. split; [|right; exact Hin].
        intros ->. apply Hk'. apply list_elem_of_fmap. exists (k0, r). split; [reflexivity|exact Hin].
      * intros [[-> ->]|[Hne [[= -> ->]|Hin]]];
          [left; reflexivity|contradiction|right; exact Hin].
    + rewrite !elem_of_cons, (IH Hnd). split.
      * intros [[= -> ->]|[[-> ->]|[Hk Hin]]].
        -- right. split; [exact Hne|left; reflexivity].
        -- left. split; reflexivity.
        -- right. split; [exact Hk|right; exact Hin].
      * intros [[-> ->]|[Hk [[= -> ->]|Hin]]].
        -- right. left. split; reflexivity.
        -- left. reflexivity.
        -- right. right. split; assumption.
Qed.

(** ** [deduplicate_records] *)

Lemma filter_singleton {A} (P : A → Prop) `{∀ x, Decision (P x)} (x : A) :
  filter P [x] = if decide (P x) then [x] else [].
Proof. rewrite filter_cons, filter_nil. reflexivity. Qed.

Lemma domains_snoc (records : list DnsRecord) (x : DnsRecord) :
  domains (records ++ [x]) =
  domains records ++
  match x !! "domain" with
  | Some d => if decide (d = "") then [] else [d]
  | None => []
  end.
Proof.
  unfold domains. rewrite omap_app. f_equal. cbn.
  destruct (x !! "domain") as [d|]; [|reflexivity].
  destruct (decide (d = "")); reflexivity.
Qed.

(** What the dictionary of [deduplicate_records] holds after the loop: its
    keys are distinct, a key is bound to the last record of that domain,
    and the keys are in the order in which the domains first appear. *)
Lemma dedup_fold_inv (records : list DnsRecord) :
  let d := foldl dedup_step [] records in
  NoDup d.*1 ∧
  (∀ k r, (k, r) ∈ d ↔
          k ≠ "" ∧ last (filter (λ x, x !! "domain" = Some k) records) = Some r) ∧
  d.*1 = reverse (remove_dups (reverse (domains records))).
Proof.
  induction records as [|x records IH] using rev_ind; cbn zeta.
  - split; [constructor|]. split; [|reflexivity].
    intros k r. cbn. split.
    + intros Hin. apply elem_of_nil in Hin. contradiction.
    + intros [_ Hl]. discriminate.
  - destruct IH as (Hnd & Hiff & Hkeys).
    rewrite foldl_app. cbn [foldl].
    set (d := foldl dedup_step [] records) in *.
    rewrite domains_snoc.
    assert (Hskip : ∀ k, x !! "domain" ≠ Some k →
              last (filter (λ y, y !! "domain" = Some k) (records ++ [x])) =
              last (filter (λ y, y !! "domain" = Some k) records)).
    { intros k Hk. rewrite filter_app, filter_singleton.
      destruct (decide (x !! "domain" = Some k)); [contradiction|].
      rewrite app_nil_r. reflexivity. }
    unfold dedup_step.
    destruct (x !! "domain") as [k0|] eqn:Hx.
    + destruct (decide (k0 = "")) as [->|Hk0].
      * rewrite app_nil_r.
        split; [exact Hnd|]. split; [|exact Hkeys].
        intros k r. rewrite Hiff. split; intros [Hk Hl]; (split; [exact Hk|]).
        -- rewrite Hskip; [exact Hl|congruence].
        -- rewrite Hskip in Hl; [exact Hl|congruence].
      * split; [apply dict_set_NoDup, Hnd|]. split.
        -- intros k r. rewrite (elem_of_dict_set k0 x d k r Hnd), Hiff.
           destruct (decide (k = k0)) as [->|Hne].
           ++ rewrite filter_app, filter_singleton.
              rewrite decide_True by exact Hx.
              rewrite last_snoc. split.
              ** intros [[_ ->]|[Hc _]]; [split; [exact Hk0|reflexivity]|contradiction].
              ** intros [_ [= ->]]. left. split; reflexivity.
           ++ rewrite Hskip; [|congruence]. split.
              ** intros [[Hc _]|[_ Hr]]; [contradiction|exact Hr].
              ** intros Hr. right. split; [exact Hne|exact Hr].
        -- rewrite dict_set_fst, reverse_snoc. cbn [remove_dups].
           unfold decide_rel.
           destruct (list_elem_of_dec k0 (reverse (domains records))) as [Hin|Hnin].
           ++ destruct (decide (k0 ∈ d.*1)) as [_|Hn]; [exact Hkeys|].
              exfalso. apply Hn. rewrite Hkeys.
              rewrite elem_of_reverse, elem_of_remove_dups. exact Hin.
           ++ destruct (decide (k0 ∈ d.*1)) as [Hin|_].
              ** exfalso. apply Hnin. rewrite Hkeys in Hin.
                 rewrite elem_of_reverse, elem_of_remove_dups in Hin. exact Hin.
              ** rewrite reverse_cons, Hkeys. reflexivity.
    + rewrite app_nil_r.
      split; [exact Hnd|]. split; [|exact Hkeys].
      intros k r. rewrite Hiff. split; intros [Hk Hl]; (split; [exact Hk|]).
      * rewrite Hskip; [exact Hl|congruence].
      * rewrite Hskip in Hl; [exact Hl|congruence].
Qed.

Lemma dedup_fold_pairs (records : list DnsRecord) k r :
  (k, r) ∈ foldl dedup_step [] records → r !! "domain" = Some k ∧ k ≠ "".
Proof.
  intros Hin. destruct (dedup_fold_inv records) as (_ & Hiff & _).
  apply Hiff in Hin as [Hk Hl]. split; [|exact Hk].
  apply last_Some_elem_of, list_elem_of_filter in Hl as [Hd _]. exact Hd.
Qed.

Lemma dedup_fold_domains (records : list DnsRecord) :
  domain_of <$> deduplicate_records records = (foldl dedup_step [] records).*1.
Proof.
  unfold deduplicate_records.
  pose proof (dedup_fold_pairs records) as Hp.
  induction (foldl dedup_step [] records) as [|[k r] d IH]; [reflexivity|].
  cbn. f_equal.
  - destruct (Hp k r) as [Hd _]; [left|]. unfold domain_of. rewrite Hd. reflexivity.
  - apply IH. intros k' r' Hin. apply Hp. right. exact Hin.
Qed.

(** Records with distinct non-empty domains that are not yet keys are added
    at the end, one by one. *)
Lemma dedup_fold_fresh (l : list DnsRecord) :
  ∀ d : list (string * DnsRecord),
    NoDup (d.*1 ++ (domain_of <$> l)) →
    Forall (λ r, ∃ k, r !! "domain" = Some k ∧ k ≠ "") l →
    foldl dedup_step d l = d ++ ((λ r, (domain_of r, r)) <$> l).
Proof.
  induction l as [|r l IH]; intros d Hnd Hall.
  - cbn. rewrite app_nil_r. reflexivity.
  - apply Forall_cons in Hall as [(k & Hk & Hne) Hall].
    assert (Hdom : domain_of r = k) by (unfold domain_of; rewrite Hk; reflexivity).
    cbn [foldl fmap list_fmap] in Hnd |- *. rewrite Hdom in Hnd |- *.
    unfold dedup_step at 2. rewrite Hk.
    destruct (decide (k = "")) as [|_]; [contradiction|].
    pose proof Hnd as Hnd'. apply NoDup_app in Hnd' as (Hd & Hdis & Hl).
    rewrite dict_set_fresh.
    + rewrite IH; [rewrite <- app_assoc; reflexivity| |exact Hall].
      rewrite fmap_app, <- app_assoc. exact Hnd.
    + intros Hin. apply (Hdis k Hin). left.
Qed.

Lemma deduplicate_records_unique_aux (records : list DnsRecord) :
  NoDup (domain_of <$> deduplicate_records records) ∧
  Forall (λ r, ∃ d, r !! "domain" = Some d ∧ d ≠ "")
         (deduplicate_records records).
Proof.
  destruct (dedup_fold_inv records) as (Hnd & Hiff & Hkeys). cbn zeta in *.
  split; [rewrite dedup_fold_domains; exact Hnd|].
  apply Forall_forall. intros r Hr. unfold deduplicate_records in Hr.
  apply list_elem_of_fmap in Hr as ([k r'] & -> & Hin).
  exists k. apply (dedup_fold_pairs records k r' Hin).
Qed.

(** X: the records [deduplicate_records] returns have pairwise distinct
    domains, each of them present and not empty, and there are no more of
    them than records were given. *)
Theorem deduplicate_records_unique (records : list DnsRecord) :
  NoDup (domain_of <$> deduplicate_records records) ∧
  Forall (λ r, ∃ d, r !! "domain" = Some d ∧ d ≠ "")
         (deduplicate_records records) ∧
  (length (deduplicate_records records) ≤ length records)%nat.
Proof.
  destruct (dedup_fold_inv records) as (Hnd & Hiff & Hkeys). cbn zeta in *.
  split; [rewrite dedup_fold_domains; exact Hnd|]. split.
  - apply Forall_forall. intros r Hr. unfold deduplicate_records in Hr.
    apply list_elem_of_fmap in Hr as ([k r'] & -> & Hin).
    exists k. apply (dedup_fold_pairs records k r' Hin).
  - rewrite <- (length_fmap domain_of), dedup_fold_domains, Hkeys.
    rewrite length_reverse.
    assert (Hrd : ∀ l : list string, (length (remove_dups l) ≤ length l)%nat).
    { induction l as [|x l IHl]; cbn; [lia|]. destruct (decide_rel _ _ _); cbn; lia. }
    etrans; [apply Hrd|]. rewrite length_reverse.
    unfold domains. clear. induction records as [|x l IHl]; cbn; [lia|].
    destruct (x !! "domain") as [d|]; [destruct (decide (d = ""))|]; cbn; lia.
Qed.

(** X: a record is returned exactly when it is the last of the given records
    that carries its domain, for a domain that is not empty: of several
    records of one domain the last one wins. *)
Theorem deduplicate_records_last_wins (records : list DnsRecord) (r : DnsRecord) :
  r ∈ deduplicate_records records ↔
  ∃ d, d ≠ "" ∧ last (filter (λ x, x !! "domain" = Some d) records) = Some r.
Proof.
  destruct (dedup_fold_inv records) as (_ & Hiff & _). cbn zeta in *.
  unfold deduplicate_records. rewrite list_elem_of_fmap. split.
  - intros ([k r'] & -> & Hin). exists k. apply Hiff, Hin.
  - intros (d & Hd & Hl). exists (d, r). split; [reflexivity|].
    apply Hiff. split; assumption.
Qed.

(** X: the records are returned in the order in which their domains first
    appear among the given records. *)
Theorem deduplicate_records_order (records : list DnsRecord) :
  domain_of <$> deduplicate_records records =
  reverse (remove_dups (reverse (domains records))).
Proof.
  rewrite dedup_fold_domains. apply (dedup_fold_inv records).
Qed.

(** X: deduplicating leaves a list alone whose records have distinct
    non-empty domains, so deduplicating twice is deduplicating once. *)
Theorem deduplicate_records_idempotent (records : list DnsRecord) :
  (NoDup (domain_of <$> records) →
   Forall (λ r, ∃ d, r !! "domain" = Some d ∧ d ≠ "") records →
   deduplicate_records records = records) ∧
  deduplicate_records (deduplicate_records records) = deduplicate_records records.
Proof.
  assert (Hid : ∀ l : list DnsRecord,
            NoDup (domain_of <$> l) →
            Forall (λ r, ∃ d, r !! "domain" = Some d ∧ d ≠ "") l →
            deduplicate_records l = l).
  { intros l Hnd Hall. unfold deduplicate_records.
    rewrite (dedup_fold_fresh l [] Hnd Hall). cbn.
    rewrite <- list_fmap_compose. apply list_fmap_id. }
  split; [apply Hid|].
  destruct (deduplicate_records_unique_aux records) as [Hnd Hall].
  apply Hid; assumption.
Qed.

(** ** Recognising container records *)

Lemma is_container_dns_record_spec_aux (domain : string) :
  (∃ name, domain = name +:+ ".docker") →
  domain ≠ "test.docker" → domain ≠ "test-record.docker" →
  is_container_dns_record domain = true.
Proof.
  intros Hn H1 H2. unfold is_container_dns_record, excluded.
  apply endswith_spec in Hn. rewrite Hn. cbn [negb].
  rewrite bool_decide_eq_false_2; [reflexivity|].
  intros Hx. apply elem_of_cons in Hx as [->|Hx]; [contradiction|].
  apply list_elem_of_singleton in Hx. contradiction.
Qed.

(** X: [is_container_dns_record] accepts exactly the domains that end in
    [.docker], whatever precedes it (nothing, too), except the two excluded
    ones. *)
Theorem is_container_dns_record_spec (domain : string) :
  is_container_dns_record domain = true ↔
  (∃ name, domain = name +:+ ".docker") ∧
  domain ≠ "test.docker" ∧ domain ≠ "test-record.docker".
Proof.
  unfold is_container_dns_record, excluded.
  destruct (endswith domain ".docker") eqn:He; cbn [negb].
  - apply endswith_spec in He.
    destruct (bool_decide (domain ∈ ["test.docker"; "test-record.docker"])) eqn:Hx.
    + apply bool_decide_eq_true in Hx. split; [discriminate|].
      intros (_ & H1 & H2). exfalso.
      apply elem_of_cons in Hx as [->|Hx]; [contradiction|].
      apply list_elem_of_singleton in Hx. contradiction.
    + apply bool_decide_eq_false in Hx. split; [|reflexivity]. intros _.
      split; [exact He|]. split; intros ->; apply Hx; [left|right; left].
  - split; [discriminate|]. intros (Hn & _).
    apply endswith_spec in Hn. congruence.
Qed.

(** X: [domain.replace(".docker", "")] removes the first occurrence of
    [.docker] and goes on in what follows it: every occurrence goes, not
    only the one at the end. *)
Theorem container_name_every_occurrence (name rest : string) :
  (∀ p q, name ≠ p +:+ ".docker" +:+ q) →
  container_name (name +:+ ".docker" +:+ rest) = name +:+ container_name rest.
Proof. intros Hno. apply container_name_append, Hno. Qed.

(** X: for a container name in which [.docker] does not occur and that is
    neither [test] nor [test-record], the domain [<name>.docker] is a
    container record and its container name is that name again. *)
Theorem container_name_round_trip (name : string) :
  (∀ p q, name ≠ p +:+ ".docker" +:+ q) →
  name ≠ "test" → name ≠ "test-record" →
  is_container_dns_record (name +:+ ".docker") = true ∧
  container_name (name +:+ ".docker") = name.
Proof.
  intros Hno Ht Htr. split.
  - apply is_container_dns_record_spec_aux.
    + exists name. reflexivity.
    + intros Heq. apply Ht. apply (append_cancel_r ".docker"). exact Heq.
    + intros Heq. apply Htr. apply (append_cancel_r ".docker"). exact Heq.
  - unfold container_name, str_replace.
    rewrite <- (append_nil_r (name +:+ ".docker")), append_assoc.
    rewrite (container_name_append name "" Hno). apply append_nil_r.
Qed.

(** ** [get_active_containers] *)

Lemma split_not_nil (sep : ascii) (s : string) : split sep s ≠ [].
Proof.
  destruct s as [|c s]; cbn; [discriminate|].
  destruct (Ascii.eqb c sep); [discriminate|].
  destruct (split sep s); discriminate.
Qed.

Lemma split_no_sep (sep : ascii) (s : string) :
  Forall (λ piece, sep ∉ chars piece) (split sep s).
Proof.
  induction s as [|c s IH]; cbn [split].
  - constructor; [|constructor]. cbn. apply not_elem_of_nil.
  - destruct (Ascii.eqb_spec c sep) as [->|Hne].
    + constructor; [cbn; apply not_elem_of_nil|exact IH].
    + destruct (split sep s) as [|h t].
      * constructor; [|constructor]. cbn.
        intros Hin. apply list_elem_of_singleton in Hin. congruence.
      * apply Forall_cons in IH as [Hh Ht]. constructor; [|exact Ht].
        cbn. intros Hin. apply elem_of_cons in Hin as [Heq|Hin];
          [congruence|contradiction].
Qed.

Lemma split_piece (sep : ascii) (name : string) :
  sep ∉ chars name → split sep name = [name].
Proof.
  induction name as [|c name IH]; intros Hno; [reflexivity|].
  cbn in Hno |- *. apply not_elem_of_cons in Hno as [Hne Hno].
  destruct (Ascii.eqb_spec c sep) as [->|_]; [contradiction|].
  rewrite (IH Hno). reflexivity.
Qed.

Lemma split_app_sep (sep : ascii) (name rest : string) :
  sep ∉ chars name →
  split sep (name +:+ String sep rest) = name :: split sep rest.
Proof.
  induction name as [|c name IH]; intros Hno.
  - rewrite append_nil. cbn. rewrite Ascii.eqb_refl. reflexivity.
  - cbn in Hno. apply not_elem_of_cons in Hno as [Hne Hno].
    rewrite append_cons. cbn [split].
    destruct (Ascii.eqb_spec c sep) as [->|_]; [contradiction|].
    rewrite (IH Hno). reflexivity.
Qed.

Lemma rstrip_app (a b : string) :
  rstrip (a +:+ b) =
  match rstrip b with
  | EmptyString => rstrip a
  | String x r => a +:+ String x r
  end.
Proof.
  induction a as [|c a IH].
  - rewrite append_nil. destruct (rstrip b); reflexivity.
  - rewrite append_cons. cbn [rstrip]. rewrite IH.
    destruct (rstrip b) as [|x r]; [reflexivity|].
    rewrite append_cons. destruct a; reflexivity.
Qed.

Lemma rstrip_no_space (name : string) :
  Forall (λ c, is_space c = false) (chars name) → rstrip name = name.
Proof.
  induction name as [|c name IH]; intros Hall; [reflexivity|].
  cbn in Hall. apply Forall_cons in Hall as [Hc Hall].
  cbn [rstrip]. rewrite (IH Hall), Hc. destruct name; reflexivity.
Qed.

Lemma lstrip_no_space (c : ascii) (s : string) :
  is_space c = false → lstrip (String c s) = String c s.
Proof. intros Hc. cbn. rewrite Hc. reflexivity. Qed.

(** What is left of the output of [docker ps] for well-formed names once
    the white space around it is stripped: the names, one newline between
    two of them. *)
Lemma strip_docker_output (names : list string) :
  Forall (λ name, name ≠ "" ∧ Forall (λ c, is_space c = false) (chars name))
         names →
  strip (docker_output names) = String.concat (String newline "") names.
Proof.
  intros Hall. unfold strip.
  assert (Hl : lstrip (docker_output names) = docker_output names).
  { destruct Hall as [|name rest [Hne Hcs] _]; [reflexivity|].
    cbn [docker_output foldr]. destruct name as [|c name]; [contradiction|].
    cbn in Hcs. apply Forall_cons in Hcs as [Hc _].
    rewrite append_cons. apply lstrip_no_space, Hc. }
  rewrite Hl. clear Hl.
  induction Hall as [|name rest [Hne Hcs] Hrest IH]; [reflexivity|].
  cbn [docker_output foldr]. fold (docker_output rest).
  rewrite rstrip_app. cbn [rstrip]. rewrite IH.
  destruct Hrest as [|name2 rest2 [Hne2 _] _].
  - cbn. apply rstrip_no_space, Hcs.
  - cbn [String.concat].
    assert (Hc : ∃ x r, String.concat (String newline "") (name2 :: rest2) =
                        String x r).
    { destruct name2 as [|x name2]; [contradiction|].
      cbn [String.concat]. destruct rest2; [eauto|]. rewrite append_cons. eauto. }
    destruct Hc as (x & r & Hc). cbn [String.concat] in Hc. rewrite Hc.
    rewrite append_cons, append_nil. reflexivity.
Qed.

Lemma split_concat (names : list string) :
  names ≠ [] → Forall (λ name, newline ∉ chars name) names →
  split newline (String.concat (String newline "") names) = names.
Proof.
  intros Hne Hall. induction Hall as [|name rest Hn Hrest IH]; [contradiction|].
  destruct rest as [|name2 rest].
  - cbn. apply split_piece, Hn.
  - cbn [String.concat]. rewrite append_cons, append_nil.
    rewrite (split_app_sep _ _ _ Hn). f_equal. apply IH. discriminate.
Qed.

Lemma container_names_well_formed_aux (stdout : string) :
  Forall (λ name, name ≠ "" ∧ newline ∉ chars name) (container_names stdout).
Proof.
  unfold container_names. apply Forall_forall. intros name Hin.
  apply list_elem_of_filter in Hin as [Hne Hin]. split; [exact Hne|].
  pose proof (split_no_sep newline (strip stdout)) as Hs.
  rewrite Forall_forall in Hs. apply Hs, Hin.
Qed.

(** X: when [docker ps] prints the names of the running containers, each on
    its line, and no name is empty or contains white space, the names read
    back are those names, in order. *)
Theorem container_names_round_trip (names : list string) :
  Forall (λ name, name ≠ "" ∧ Forall (λ c, is_space c = false) (chars name))
         names →
  container_names (docker_output names) = names.
Proof.
  intros Hall. unfold container_names. rewrite (strip_docker_output names Hall).
  destruct names as [|name rest]; [reflexivity|].
  rewrite split_concat; [|discriminate|].
  - induction Hall as [|n l [Hne _] _ IH]; [reflexivity|].
    rewrite filter_cons_True by exact Hne. f_equal. exact IH.
  - eapply Forall_impl; [exact Hall|]. intros n [_ Hcs] Hin.
    rewrite Forall_forall in Hcs. specialize (Hcs _ Hin). discriminate.
Qed.

(** ** The clean-up *)

Lemma actions_app (e1 e2 : list PyEvent) : actions (e1 ++ e2) = actions e1 ++ actions e2.
Proof. apply omap_app. Qed.

Lemma omap_actions {B} (f : PyEvent → option B) :
  (∀ lvl msg, f (PyLog lvl msg) = None) →
  ∀ evs, omap f (actions evs) = omap f evs.
Proof.
  intros Hf. unfold actions. induction evs as [|e evs IH]; [reflexivity|].
  destruct e as [lvl msg| |ep m data|n]; cbn [omap list_omap] in *;
    rewrite ?Hf, IH; reflexivity.
Qed.

Lemma posts_actions (evs : list PyEvent) : posts (actions evs) = posts evs.
Proof. apply omap_actions. reflexivity. Qed.

Lemma gets_actions (evs : list PyEvent) : gets (actions evs) = gets evs.
Proof. apply omap_actions. reflexivity. Qed.

Lemma sleeps_actions (evs : list PyEvent) : sleeps (actions evs) = sleeps evs.
Proof. apply omap_actions. reflexivity. Qed.

Lemma deleted_actions (evs : list PyEvent) : deleted (actions evs) = deleted evs.
Proof. apply omap_actions. reflexivity. Qed.

Lemma added_actions (evs : list PyEvent) : added (actions evs) = added evs.
Proof. apply omap_actions. reflexivity. Qed.

Section ScriptProperties.
Context {W : Type} `{Host W}.

Lemma py_bind_events {A B} (m : Py W A) (f : A → Py W B) (w : W) :
  py_events (py_bind m f w) =
  py_events (m w) ++ py_events (f (py_result (m w)) (py_final (m w))).
Proof.
  unfold py_bind, py_events, py_result, py_final.
  destruct (m w) as [[a w1] e1]. cbn. destruct (f a w1) as [[b w2] e2]. reflexivity.
Qed.

Lemma py_bind_result {A B} (m : Py W A) (f : A → Py W B) (w : W) :
  py_result (py_bind m f w) = py_result (f (py_result (m w)) (py_final (m w))).
Proof.
  unfold py_bind, py_events, py_result, py_final.
  destruct (m w) as [[a w1] e1]. cbn. destruct (f a w1) as [[b w2] e2]. reflexivity.
Qed.

Lemma py_bind_final {A B} (m : Py W A) (f : A → Py W B) (w : W) :
  py_final (py_bind m f w) = py_final (f (py_result (m w)) (py_final (m w))).
Proof.
  unfold py_bind, py_events, py_result, py_final.
  destruct (m w) as [[a w1] e1]. cbn. destruct (f a w1) as [[b w2] e2]. reflexivity.
Qed.

Lemma request_events ep m data (w : W) :
  py_events (request ep m data w) = [PyRequest ep m data].
Proof. unfold request. destruct (_make_request ep m data w). reflexivity. Qed.

Lemma request_result ep m data (w : W) :
  py_result (request ep m data w) = (_make_request ep m data w).1.
Proof. unfold request. destruct (_make_request ep m data w). reflexivity. Qed.

Lemma request_final ep m data (w : W) :
  py_final (request ep m data w) = (_make_request ep m data w).2.
Proof. unfold request. destruct (_make_request ep m data w). reflexivity. Qed.

Lemma py_for_log_actions {A} lvl (msg : A → string) (l : list A) :
  ∀ w : W, actions (py_events (py_for l (λ x, py_log lvl (msg x)) w)) = [].
Proof.
  induction l as [|x l IH]; intros w; [reflexivity|].
  cbn [py_for]. rewrite py_bind_events, actions_app, IH. reflexivity.
Qed.

Lemma py_for_delete_actions (l : list DnsRecord) :
  ∀ w : W,
    actions (py_events
      (py_for l (λ record, do$ delete_dns_record (domain_of record) in py_ret tt) w)) =
    (λ r, delete_request (domain_of r)) <$> l.
Proof.
  induction l as [|x l IH]; intros w; [reflexivity|].
  cbn [py_for]. rewrite py_bind_events, actions_app, IH. cbn [fmap list_fmap].
  rewrite py_bind_events. unfold delete_dns_record at 1.
  rewrite py_bind_events, request_events. reflexivity.
Qed.

Lemma py_for_add_actions (l : list DnsRecord) :
  ∀ w : W,
    actions (py_events
      (py_for l (λ record,
         do$ add_dns_record (domain_of record) (answer_of record) in py_ret tt) w)) =
    add_request <$> l.
Proof.
  induction l as [|x l IH]; intros w; [reflexivity|].
  cbn [py_for]. rewrite py_bind_events, actions_app, IH. cbn [fmap list_fmap].
  rewrite py_bind_events. unfold add_dns_record at 1.
  rewrite py_bind_events, request_events. reflexivity.
Qed.

Lemma dry_run_report_spec active stale (w : W) :
  actions (py_events (dry_run_report active stale w)) = [] ∧
  py_result (dry_run_report active stale w) = true.
Proof.
  unfold dry_run_report. split.
  - rewrite !py_bind_events, !actions_app, !py_for_log_actions. reflexivity.
  - rewrite !py_bind_result. reflexivity.
Qed.

Lemma delete_stale_actions force containers active stale (w : W) :
  actions (py_events (delete_stale force containers active stale w)) =
  if force then
    ((λ r, delete_request (domain_of r)) <$> containers) ++ (add_request <$> active)
  else (λ r, delete_request (domain_of r)) <$> stale.
Proof.
  unfold delete_stale. destruct force.
  - rewrite !py_bind_events, !actions_app, py_for_delete_actions,
      py_for_add_actions. cbn. rewrite app_nil_r. reflexivity.
  - rewrite !py_bind_events, !actions_app, py_for_delete_actions.
    cbn. rewrite app_nil_r. reflexivity.
Qed.

Lemma verify_cleanup_spec force active (w : W) :
  actions (py_events (verify_cleanup force active w)) = [PySleep 2; list_request] ∧
  py_result (verify_cleanup force active w) =
    bool_decide (is_Some (_make_request "control/rewrite/list" GET [] w).1).
Proof.
  unfold verify_cleanup, get_dns_records.
  rewrite !py_bind_events, !py_bind_result, !actions_app, request_events.
  cbn [py_sleep py_final py_result fst snd]. rewrite request_result.
  destruct (_make_request "control/rewrite/list" GET [] w).1 as [upd|].
  - split.
    + rewrite py_bind_events, actions_app.
      destruct (decide _); [|reflexivity].
      rewrite py_bind_events, actions_app. destruct (negb force); reflexivity.
    + rewrite py_bind_result. reflexivity.
  - split; reflexivity.
Qed.

Lemma clean_records_spec dry force active response (w : W) :
  actions (py_events (clean_records dry force active response w)) =
    planned dry force active response ∧
  (dry = true ∨
   stale_of active
     (container_records (deduplicate_records (records_of response))) = [] →
   py_result (clean_records dry force active response w) = true).
Proof.
  unfold clean_records, planned, changes.
  set (recs := container_records (deduplicate_records (records_of response))).
  rewrite !py_bind_events, !py_bind_result, !actions_app.
  cbn [py_log py_events py_final py_result fst snd actions omap list_omap app].
  destruct dry.
  - destruct (dry_run_report_spec active (stale_of active recs) w) as [Ha Hr].
    split; [exact Ha|intros _; exact Hr].
  - destruct (stale_of active recs) as [|r0 st] eqn:Hst.
    + split; [reflexivity|]. intros _. reflexivity.
    + split; [|intros [Hd|Hd]; discriminate].
      rewrite py_bind_events, actions_app, delete_stale_actions.
      rewrite (proj1 (verify_cleanup_spec _ _ _)). destruct force; reflexivity.
Qed.

Lemma list_active_spec test (w : W) :
  actions (py_events (list_active test w)) = (if test then [] else [PyDockerPs]) ∧
  (test = true → py_result (list_active test w) = get_test_active_containers) ∧
  (test = false →
   py_result (list_active test w) =
     match (docker_ps w).1 with
     | inr stdout => container_names stdout
     | inl _ => []
     end).
Proof.
  unfold list_active. destruct test.
  - repeat split; discriminate.
  - unfold get_active_containers.
    destruct (docker_ps w) as [[e|stdout] w']; repeat split; discriminate.
Qed.

(** What the whole run does apart from logging. *)
Lemma cleanup_actions dry force test (w : W) :
  let active := py_result (list_active test w) in
  let w1 := py_final (list_active test w) in
  actions (py_events (cleanup_stale_dns_records dry force test w)) =
    (if test then [] else [PyDockerPs]) ++ list_request ::
    match (_make_request "control/rewrite/list" GET [] w1).1 with
    | Some response => planned dry force active response
    | None => []
    end.
Proof.
  intros active w1. unfold cleanup_stale_dns_records, get_dns_records.
  rewrite !py_bind_events, !actions_app, request_events.
  rewrite (proj1 (list_active_spec test w)).
  cbn [py_log py_events py_final py_result fst snd actions omap list_omap app].
  rewrite request_result, request_final. fold active. fold w1.
  f_equal. unfold list_request. f_equal.
  destruct (_make_request "control/rewrite/list" GET [] w1).1 as [response|].
  - apply clean_records_spec.
  - reflexivity.
Qed.

End ScriptProperties.

Lemma NoDup_fmap_filter {A B} (f : A → B) (P : A → Prop)
    `{∀ x, Decision (P x)} (l : list A) :
  NoDup (f <$> l) → NoDup (f <$> filter P l).
Proof.
  induction l as [|x l IH]; intros Hnd; [constructor|].
  cbn in Hnd. apply NoDup_cons in Hnd as [Hx Hnd].
  rewrite filter_cons. destruct (decide (P x)); [|apply IH, Hnd].
  cbn. apply NoDup_cons. split; [|apply IH, Hnd].
  intros Hin. apply Hx. apply list_elem_of_fmap in Hin as (y & -> & Hy).
  apply list_elem_of_fmap. exists y. split; [reflexivity|].
  apply list_elem_of_filter in Hy as [_ Hy]. exact Hy.
Qed.

Lemma deleted_delete_requests (l : list DnsRecord) :
  deleted ((λ r, delete_request (domain_of r)) <$> l) = domain_of <$> l.
Proof. induction l as [|r l IH]; [reflexivity|]. cbn. f_equal. exact IH. Qed.

Lemma deleted_add_requests (l : list DnsRecord) : deleted (add_request <$> l) = [].
Proof. induction l as [|r l IH]; [reflexivity|]. exact IH. Qed.

Lemma added_delete_requests (l : list DnsRecord) :
  added ((λ r, delete_request (domain_of r)) <$> l) = [].
Proof. induction l as [|r l IH]; [reflexivity|]. exact IH. Qed.

Lemma added_add_requests (l : list DnsRecord) :
  added (add_request <$> l) = (λ r, (domain_of r, answer_of r)) <$> l.
Proof. induction l as [|r l IH]; [reflexivity|]. cbn. f_equal. exact IH. Qed.

Lemma deleted_app (e1 e2 : list PyEvent) : deleted (e1 ++ e2) = deleted e1 ++ deleted e2.
Proof. apply omap_app. Qed.

Lemma added_app (e1 e2 : list PyEvent) : added (e1 ++ e2) = added e1 ++ added e2.
Proof. apply omap_app. Qed.

Lemma deleted_changes force active response :
  deleted (changes force active response) =
  domain_of <$>
    (if force
     then container_records (deduplicate_records (records_of response))
     else stale_of active
            (container_records (deduplicate_records (records_of response)))).
Proof.
  unfold changes. destruct force.
  - rewrite deleted_app, deleted_delete_requests, deleted_add_requests.
    apply app_nil_r.
  - apply deleted_delete_requests.
Qed.

Lemma added_changes force active response :
  added (changes force active response) =
  if force
  then (λ r, (domain_of r, answer_of r)) <$>
         active_of active
           (container_records (deduplicate_records (records_of response)))
  else [].
Proof.
  unfold changes. destruct force.
  - rewrite added_app, added_delete_requests, added_add_requests. reflexivity.
  - apply added_delete_requests.
Qed.

Lemma deleted_planned dry force active response :
  deleted (planned dry force active response) = [] ∨
  deleted (planned dry force active response) =
    deleted (changes force active response).
Proof.
  unfold planned. destruct dry; [left; reflexivity|].
  destruct (stale_of _ _); [left; reflexivity|]. right.
  rewrite deleted_app. apply app_nil_r.
Qed.

Lemma stale_of_no_active (records : list DnsRecord) : stale_of [] records = records.
Proof.
  unfold stale_of. induction records as [|r l IH]; [reflexivity|].
  rewrite filter_cons_True by apply not_elem_of_nil. f_equal. exact IH.
Qed.

Section CleanupClaims.
Context {W : Type} `{Host W}.

Lemma cleanup_result dry force test (w : W) :
  py_result (cleanup_stale_dns_records dry force test w) =
  match (_make_request "control/rewrite/list" GET []
           (py_final (list_active test w))).1 with
  | Some response =>
      py_result (clean_records dry force (py_result (list_active test w)) response
                   (_make_request "control/rewrite/list" GET []
                      (py_final (list_active test w))).2)
  | None => false
  end.
Proof.
  unfold cleanup_stale_dns_records, get_dns_records.
  rewrite !py_bind_result.
  cbn [py_log py_events py_final py_result fst snd].
  rewrite request_result, request_final.
  destruct (_make_request _ _ _ _).1; reflexivity.
Qed.

(** X: a dry run changes nothing: whatever the containers and the records,
    it sends no request other than the one read of the records, and it does
    not pause. *)
Theorem dry_run_changes_nothing (force test : bool) (w : W) :
  posts (py_events (cleanup_stale_dns_records true force test w)) = [] ∧
  gets (py_events (cleanup_stale_dns_records true force test w)) =
    ["control/rewrite/list"] ∧
  sleeps (py_events (cleanup_stale_dns_records true force test w)) = [].
Proof.
  rewrite <- posts_actions, <- gets_actions, <- sleeps_actions, cleanup_actions.
  cbn zeta. unfold planned.
  destruct test; destruct (_make_request _ _ _ _).1; repeat split.
Qed.

(** X: when the records cannot be read, the run fails (exit status 1)
    right after that read, whatever the flags: no request changes the
    server. *)
Theorem read_failure_aborts (dry force test : bool) (w : W) :
  (_make_request "control/rewrite/list" GET []
     (py_final (list_active test w))).1 = None →
  py_result (cleanup_stale_dns_records dry force test w) = false ∧
  py_result (main dry force test w) = 1 ∧
  posts (py_events (cleanup_stale_dns_records dry force test w)) = [] ∧
  gets (py_events (cleanup_stale_dns_records dry force test w)) =
    ["control/rewrite/list"].
Proof.
  intros Hread.
  assert (Hres : py_result (cleanup_stale_dns_records dry force test w) = false).
  { rewrite cleanup_result, Hread. reflexivity. }
  split; [exact Hres|]. split.
  { unfold main. rewrite py_bind_result, Hres. reflexivity. }
  rewrite <- posts_actions, <- gets_actions, cleanup_actions. cbn zeta.
  rewrite Hread. destruct test; split; reflexivity.
Qed.

(** X: whatever the flags, the containers and the records, a delete is only
    requested for a domain [is_container_dns_record] accepts (so for none
    that does not end in [.docker], and neither for [test.docker] nor
    [test-record.docker]), and for no domain twice. *)
Theorem deletes_only_container_records (dry force test : bool) (w : W) :
  Forall (λ d, is_container_dns_record d = true)
         (deleted (py_events (cleanup_stale_dns_records dry force test w))) ∧
  NoDup (deleted (py_events (cleanup_stale_dns_records dry force test w))).
Proof.
  rewrite <- deleted_actions, cleanup_actions. cbn zeta.
  set (active := py_result (list_active test w)).
  assert (Hpre : ∀ l, deleted ((if test then [] else [PyDockerPs]) ++
                               list_request :: l) = deleted l).
  { intros l. destruct test; reflexivity. }
  rewrite Hpre.
  destruct (_make_request _ _ _ _).1 as [response|];
    [|split; constructor].
  destruct (deleted_planned dry force active response) as [->| ->];
    [split; constructor|].
  rewrite deleted_changes.
  set (recs := deduplicate_records (records_of response)).
  assert (Hnd : NoDup (domain_of <$> container_records recs)).
  { apply NoDup_fmap_filter, deduplicate_records_unique_aux. }
  assert (Hall : Forall (λ d, is_container_dns_record d = true)
                        (domain_of <$> container_records recs)).
  { apply Forall_fmap, Forall_forall. intros r Hr.
    apply list_elem_of_filter in Hr as [Hc _]. exact Hc. }
  destruct force; [split; assumption|]. split.
  - apply Forall_fmap, Forall_forall. intros r Hr.
    apply list_elem_of_filter in Hr as [_ Hr].
    apply list_elem_of_filter in Hr as [Hc _]. exact Hc.
  - apply NoDup_fmap_filter, Hnd.
Qed.

(** X: without [--force], the deletes requested are exactly those of the
    stale records, in the order of the deduplicated list: the container
    records whose container name is not among the active containers. No
    record of an active container is deleted and nothing is added. *)
Theorem normal_mode_deletes_stale (test : bool) (w : W) (response : Response) :
  (_make_request "control/rewrite/list" GET []
     (py_final (list_active test w))).1 = Some response →
  let active := py_result (list_active test w) in
  let evs := py_events (cleanup_stale_dns_records false false test w) in
  deleted evs =
    domain_of <$>
      stale_of active
        (container_records (deduplicate_records (records_of response))) ∧
  added evs = [] ∧
  length (posts evs) = length (deleted evs) ∧
  Forall (λ d, container_name d ∉ active) (deleted evs).
Proof.
  intros Hread active evs. subst evs.
  rewrite <- deleted_actions, <- added_actions, <- posts_actions, cleanup_actions.
  cbn zeta. fold active. rewrite Hread.
  set (stale := stale_of active _).
  assert (Hd : deleted ((if test then [] else [PyDockerPs]) ++ list_request ::
                        planned false false active response) =
               domain_of <$> stale).
  { unfold planned, changes. fold stale. destruct test; destruct stale; cbn;
      rewrite ?deleted_app, ?deleted_delete_requests, ?app_nil_r; reflexivity. }
  rewrite Hd. split; [reflexivity|]. split; [|split].
  - unfold planned, changes. fold stale. destruct test; destruct stale; cbn;
      rewrite ?added_app, ?added_delete_requests; reflexivity.
  - unfold planned, changes. fold stale.
    assert (Hp : ∀ l : list DnsRecord,
              length (posts (((λ r, delete_request (domain_of r)) <$> l) ++
                             [PySleep 2; list_request])) = length l).
    { induction l as [|r l IH]; [reflexivity|]. cbn. f_equal. exact IH. }
    rewrite length_fmap.
    destruct test; destruct stale as [|r0 st] eqn:Hst; try reflexivity;
      cbn [app posts omap list_omap]; fold (posts); rewrite <- Hst; apply Hp.
  - apply Forall_fmap, Forall_forall. intros r Hr.
    apply list_elem_of_filter in Hr as [Hna _]. exact Hna.
Qed.

Lemma normal_mode_deleted (test : bool) (w : W) (response : Response) :
  (_make_request "control/rewrite/list" GET []
     (py_final (list_active test w))).1 = Some response →
  deleted (py_events (cleanup_stale_dns_records false false test w)) =
    domain_of <$>
      stale_of (py_result (list_active test w))
        (container_records (deduplicate_records (records_of response))).
Proof.
  intros Hread. rewrite <- deleted_actions, cleanup_actions. cbn zeta.
  rewrite Hread. unfold planned, changes.
  destruct test; destruct (stale_of _ _); cbn;
    rewrite ?deleted_app, ?deleted_delete_requests, ?app_nil_r; reflexivity.
Qed.

(** X: with [--force] and at least one stale record, all container records
    are deleted first, the stale and the active ones, then the records of
    the active containers are added again with their answers, and then
    comes the pause and the second read. *)
Theorem force_mode_recreates_active (test : bool) (w : W) (response : Response) :
  (_make_request "control/rewrite/list" GET []
     (py_final (list_active test w))).1 = Some response →
  let active := py_result (list_active test w) in
  let recs := container_records (deduplicate_records (records_of response)) in
  let evs := py_events (cleanup_stale_dns_records false true test w) in
  stale_of active recs ≠ [] →
  actions evs =
    (if test then [] else [PyDockerPs]) ++ list_request ::
    ((λ r, delete_request (domain_of r)) <$> recs) ++
    (add_request <$> active_of active recs) ++ [PySleep 2; list_request] ∧
  deleted evs = domain_of <$> recs ∧
  added evs = (λ r, (domain_of r, answer_of r)) <$> active_of active recs.
Proof.
  intros Hread active recs evs Hstale. subst evs.
  rewrite <- deleted_actions, <- added_actions, cleanup_actions.
  cbn zeta. fold active. rewrite Hread. unfold planned, changes. fold recs.
  destruct (stale_of active recs) as [|r0 st]; [contradiction|].
  rewrite <- !app_assoc. split; [reflexivity|].
  assert (Hpre : ∀ l, deleted ((if test then [] else [PyDockerPs]) ++
                               list_request :: l) = deleted l ∧
                      added ((if test then [] else [PyDockerPs]) ++
                             list_request :: l) = added l).
  { intros l. destruct test; split; reflexivity. }
  rewrite (proj1 (Hpre _)), (proj2 (Hpre _)).
  rewrite !deleted_app, !added_app, deleted_delete_requests, deleted_add_requests,
    added_delete_requests, added_add_requests.
  cbn. rewrite !app_nil_r. split; reflexivity.
Qed.

(** X: when no container record is stale the run does nothing, with or
    without [--force]: no request after the read, no pause, no second read,
    and it succeeds (exit status 0). *)
Theorem nothing_stale_nothing_done (dry force test : bool) (w : W)
    (response : Response) :
  (_make_request "control/rewrite/list" GET []
     (py_final (list_active test w))).1 = Some response →
  stale_of (py_result (list_active test w))
    (container_records (deduplicate_records (records_of response))) = [] →
  let evs := py_events (cleanup_stale_dns_records dry force test w) in
  posts evs = [] ∧ sleeps evs = [] ∧ gets evs = ["control/rewrite/list"] ∧
  py_result (cleanup_stale_dns_records dry force test w) = true ∧
  py_result (main dry force test w) = 0.
Proof.
  intros Hread Hstale evs. subst evs.
  assert (Hres : py_result (cleanup_stale_dns_records dry force test w) = true).
  { rewrite cleanup_result, Hread. apply clean_records_spec. right. exact Hstale. }
  rewrite <- posts_actions, <- sleeps_actions, <- gets_actions, cleanup_actions.
  cbn zeta. rewrite Hread. unfold planned. rewrite Hstale.
  repeat split; try (destruct test; destruct dry; reflexivity).
  - exact Hres.
  - unfold main. rewrite py_bind_result, Hres. reflexivity.
Qed.

(** X: when [docker ps] fails, [get_active_containers] gives the empty
    list and the run goes on: every container record the server lists is
    then stale, and without [--dry-run] a delete is requested for each of
    them. *)
Theorem docker_failure_deletes_all (w : W) (e : string) (response : Response) :
  (docker_ps w).1 = inl e →
  (_make_request "control/rewrite/list" GET []
     (py_final (list_active false w))).1 = Some response →
  py_result (get_active_containers w) = [] ∧
  deleted (py_events (cleanup_stale_dns_records false false false w)) =
    domain_of <$>
      container_records (deduplicate_records (records_of response)).
Proof.
  intros Hps Hread.
  assert (Hact : py_result (list_active false w) = []).
  { rewrite (proj2 (proj2 (list_active_spec false w)) eq_refl), Hps. reflexivity. }
  split; [exact Hact|].
  rewrite (normal_mode_deleted false w response Hread), Hact, stale_of_no_active.
  reflexivity.
Qed.

(** X: the names [get_active_containers] returns are never empty and
    contain no newline, whatever [docker ps] prints. *)
Theorem get_active_containers_names (w : W) :
  Forall (λ name, name ≠ "" ∧ newline ∉ chars name)
         (py_result (get_active_containers w)).
Proof.
  unfold get_active_containers.
  destruct (docker_ps w) as [[e|stdout] w']; [constructor|].
  apply container_names_well_formed_aux.
Qed.

End CleanupClaims.

(** * Further properties of the stats collector *)

Lemma tick_body_failures k l evs :
  tick_body k l evs → failure_logs evs = fetch_failures evs.
Proof.
  induction 1 as [k|k i l evs He _ IH|k i l d r evs Hn _ IH].
  - reflexivity.
  - exact IH.
  - unfold failure_logs, fetch_failures in *. rewrite !omap_app, IH. f_equal.
    destruct r; reflexivity.
Qed.


(** How the channel and the outcome stand after a number of calls of
    [Stop]. *)
Lemma control_stop_calls (sched : list Wake) :
  ∀ k n,
    match n with
    | 0%nat => ct_chan k = ChanOpen ∧ ct_outcome k = Running
    | 1%nat => ct_chan k = ChanClosed ∧
               (ct_outcome k = Running ∨ ct_outcome k = Returned)
    | _ => ct_outcome k = Crashed CloseOfClosedChannel
    end →
    match (n + stop_calls sched)%nat with
    | 0%nat => ct_chan (foldl control_step k sched) = ChanOpen ∧
               ct_outcome (foldl control_step k sched) = Running
    | 1%nat => ct_chan (foldl control_step k sched) = ChanClosed ∧
               (ct_outcome (foldl control_step k sched) = Running ∨
                ct_outcome (foldl control_step k sched) = Returned)
    | _ => ct_outcome (foldl control_step k sched) = Crashed CloseOfClosedChannel
    end.
Proof.
  induction sched as [|wk sched IH]; intros k n Hk.
  - cbn. rewrite Nat.add_0_r. exact Hk.
  - cbn [foldl].
    assert (Hn : (n + stop_calls (wk :: sched) =
                  (n + match wk with StopCall => 1 | _ => 0 end) +
                  stop_calls sched)%nat).
    { destruct wk; cbn; lia. }
    rewrite Hn. apply IH. clear IH Hn.
    unfold control_step, control_select.
    destruct n as [|[|n]].
    + destruct Hk as [Hc Ho]. rewrite Ho, Hc.
      destruct wk as [| |b]; cbn; auto.
      destruct (tk_pending (ct_ticker k)); cbn; rewrite ?Hc, ?Ho; auto.
    + destruct Hk as [Hc [Ho|Ho]]; rewrite Ho, ?Hc;
        destruct wk as [| |b]; cbn; rewrite ?Hc, ?Ho; auto.
      destruct (tk_pending (ct_ticker k)); destruct b; cbn; auto.
    + rewrite Hk. destruct wk; cbn; exact Hk.
Qed.

Section CollectorExtras.
Context {W : Type} `{Database W} `{Manager W}.

Lemma range_instances_ctx (l : list Instance) :
  ∀ s : State W,
    ctx_next (final (range_instances l s)) =
      (ctx_next s + length (provisioned l))%nat ∧
    ctx_done (final (range_instances l s)) =
      list_to_set (seq (ctx_next s) (length (provisioned l))) ∪ ctx_done s.
Proof.
  induction l as [|i l IH]; intros s.
  - cbn. split; [lia|]. rewrite (left_id_L ∅ (∪)). reflexivity.
  - rewrite range_instances_cons.
    destruct (decide (ContainerID i = "")) as [He|Hn].
    + rewrite (collect_instance_skip i s He), (provisioned_skip i l He). apply IH.
    + rewrite (collect_instance_fetch i s Hn), (provisioned_keep i l Hn).
      cbn zeta. cbn [final fst snd length seq].
      set (s1 := mkState _ (S (ctx_next s)) _).
      destruct (IH s1) as [Hnext Hdone]. rewrite Hnext, Hdone.
      cbn [ctx_next ctx_done s1]. split; [lia|].
      rewrite list_to_set_cons, (assoc_L (∪)).
      rewrite (comm_L (∪) (list_to_set _) {[ctx_next s]}). reflexivity.
Qed.

(** X: a tick leaks no context: it creates one context per stats call, and
    when it ends every context it created is cancelled, whatever the calls
    returned; contexts cancelled before stay cancelled. *)
Theorem tick_cancels_its_contexts (c : StatsCollector) (s : State W) :
  ctx_next (final (tick c s)) =
    (ctx_next s + length (fetched (events (tick c s))))%nat ∧
  ctx_done s ⊆ ctx_done (final (tick c s)) ∧
  ∀ k, (ctx_next s ≤ k < ctx_next (final (tick c s)))%nat →
       k ∈ ctx_done (final (tick c s)).
Proof.
  destruct (GetRunningInstances (world s)) as [[l [e|]] w'] eqn:Hq.
  - unfold tick, bind. rewrite (collectStats_failed c s l e w' Hq).
    cbn. split; [lia|]. split; [reflexivity|]. intros k Hk. lia.
  - assert (Ht : tick c s =
      (tt, final (range_instances l (mkState w' (ctx_next s) (ctx_done s))),
       tick_header l ++
       events (range_instances l (mkState w' (ctx_next s) (ctx_done s))))).
    { unfold tick, bind. rewrite (collectStats_ok c s l w' Hq). cbn.
      rewrite app_nil_r. reflexivity. }
    rewrite Ht. cbn [final events fst snd].
    set (s1 := mkState w' (ctx_next s) (ctx_done s)).
    destruct (range_instances_ctx l s1) as [Hnext Hdone].
    cbn [ctx_next ctx_done s1] in Hnext, Hdone.
    assert (Hf : fetched (tick_header l ++ events (range_instances l s1)) =
                 map ID (provisioned l)).
    { unfold fetched. rewrite omap_app. cbn [omap list_omap tick_header app].
      apply (tick_body_fetched (ctx_next s1)), range_instances_body. }
    rewrite Hf, length_map, Hnext, Hdone.
    split; [reflexivity|]. split; [apply union_subseteq_r|].
    intros k Hk. apply elem_of_union. left.
    apply elem_of_list_to_set, elem_of_seq. lia.
Qed.

(** X: [collectStats] logs a failure for the stats calls that failed and
    for no other: the logged failures are the failed calls, with their
    instance and error, in order. *)
Theorem failures_logged_exactly (c : StatsCollector) (s : State W) :
  failure_logs (events (collectStats c s)) =
  fetch_failures (events (collectStats c s)).
Proof.
  destruct (GetRunningInstances (world s)) as [[l [e|]] w'] eqn:Hq.
  - rewrite (collectStats_failed c s l e w' Hq). reflexivity.
  - rewrite (collectStats_ok c s l w' Hq). cbn zeta. cbn [events snd].
    unfold failure_logs, fetch_failures. rewrite !omap_app.
    cbn [omap list_omap tick_header app].
    apply (tick_body_failures (ctx_next s) l).
    apply (range_instances_body l (mkState w' (ctx_next s) (ctx_done s))).
Qed.


(** X: [Stop] may be called once in the life of a collector made by
    [NewStatsCollector] with a positive interval. Without a call the loop
    keeps running; with one call it runs or has returned; with a second
    call, at any moment, the program panics on the closed channel. *)
Theorem second_Stop_call_crashes (rate : Duration) (s : State W)
    (sched : list Wake) :
  0 < rate →
  match stop_calls sched with
  | 0%nat => lp_outcome (run (NewStatsCollector rate) s sched) = Running
  | 1%nat => lp_outcome (run (NewStatsCollector rate) s sched) = Running ∨
             lp_outcome (run (NewStatsCollector rate) s sched) = Returned
  | _ => lp_outcome (run (NewStatsCollector rate) s sched) =
           Crashed CloseOfClosedChannel
  end.
Proof.
  intros Hpos.
  pose proof (control_stop_calls sched (control_start (NewStatsCollector rate)) 0)
    as Hc.
  rewrite <- (run_control (NewStatsCollector rate) s sched) in Hc.
  cbn [Nat.add control_of ct_chan ct_outcome] in Hc.
  assert (Hstart : ct_chan (control_start (NewStatsCollector rate)) = ChanOpen ∧
                   ct_outcome (control_start (NewStatsCollector rate)) = Running).
  { unfold control_start, NewTicker. cbn [collectionRate NewStatsCollector].
    destruct (decide (rate <= 0)); [lia|]. split; reflexivity. }
  specialize (Hc Hstart).
  destruct (stop_calls sched) as [|[|n]]; [apply Hc|apply Hc|exact Hc].
Qed.

Lemma step_returned_inv (l : Loop W) (wk : Wake) :
  ((lp_outcome l = Returned →
    tk_running (lp_ticker l) = false ∧ last (lp_events l) = Some stopped_line) ∧
   (lp_outcome l = Running → tk_running (lp_ticker l) = true)) →
  (lp_outcome (step l wk) = Returned →
   tk_running (lp_ticker (step l wk)) = false ∧
   last (lp_events (step l wk)) = Some stopped_line) ∧
  (lp_outcome (step l wk) = Running → tk_running (lp_ticker (step l wk)) = true).
Proof.
  intros [Hret Hrun]. unfold step.
  destruct (lp_outcome l) eqn:Ho.
  - specialize (Hrun eq_refl).
    destruct wk as [| |b]; cbn [lp_outcome lp_ticker lp_events].
    + unfold fire. rewrite Hrun. split; [discriminate|reflexivity].
    + unfold Stop. destruct (close _); cbn; rewrite ?Ho;
        split; try discriminate; auto.
    + unfold select.
      destruct (tk_pending (lp_ticker l) && _).
      * cbn. split; [discriminate|]. intros _. exact Hrun.
      * destruct (recv_ready _).
        -- cbn. split; [|discriminate]. intros _. split; [reflexivity|].
           unfold stopped, log, emit, events. cbn. apply last_snoc.
        -- rewrite Ho. split; [discriminate|auto].
  - specialize (Hret eq_refl). destruct Hret as [Htk Hlast].
    destruct wk as [| |b]; cbn [lp_outcome lp_ticker lp_events].
    + unfold fire. rewrite Htk. split; [auto|discriminate].
    + unfold Stop. destruct (close _); cbn; rewrite ?Ho;
        split; try discriminate; auto.
    + rewrite Ho. split; [auto|discriminate].
  - rewrite Ho. split; discriminate.
Qed.

(** X: when [run] has returned, its ticker is stopped (the deferred
    [ticker.Stop()]) and the last thing it did was to log that the collector
    stopped; as long as it runs, the ticker runs. *)
Theorem return_stops_ticker (c : StatsCollector) (s : State W) (sched : list Wake) :
  (lp_outcome (run c s sched) = Returned →
   tk_running (lp_ticker (run c s sched)) = false ∧
   last (lp_events (run c s sched)) = Some stopped_line) ∧
  (lp_outcome (run c s sched) = Running →
   tk_running (lp_ticker (run c s sched)) = true).
Proof.
  unfold run.
  assert (Hstart :
    (lp_outcome (run_start c s) = Returned →
     tk_running (lp_ticker (run_start c s)) = false ∧
     last (lp_events (run_start c s)) = Some stopped_line) ∧
    (lp_outcome (run_start c s) = Running →
     tk_running (lp_ticker (run_start c s)) = true)).
  { unfold run_start, NewTicker.
    destruct (decide (collectionRate c <= 0)); cbn; split; try discriminate; auto. }
  revert Hstart. generalize (run_start c s).
  induction sched as [|wk sched IH]; intros l Hl; [exact Hl|].
  cbn [foldl]. apply IH, step_returned_inv, Hl.
Qed.

End CollectorExtras.

(** ** The further properties at concrete executions *)

Lemma short_name_no_docker (name : string) :
  (String.length name < 7)%nat → ∀ p q, name ≠ p +:+ ".docker" +:+ q.
Proof.
  intros Hlen p q Heq. apply (f_equal String.length) in Heq.
  rewrite !append_length in Heq. cbn in Heq. lia.
Qed.

Lemma tick_cancels_its_contexts_witness :
  (1 ≤ 2 < ctx_next (final (tick every_second (init_state first_fails))))%nat ∧
  2%nat ∈ ctx_done (final (tick every_second (init_state first_fails))).
Proof.
  assert (Hk : (1 ≤ 2 < ctx_next (final (tick every_second
                                            (init_state first_fails))))%nat).
  { vm_compute. lia. }
  split; [exact Hk|].
  exact (proj2 (proj2 (tick_cancels_its_contexts every_second
                         (init_state first_fails))) 2%nat Hk).
Defined.

Lemma second_Stop_call_crashes_witness :
  0 < Second ∧
  lp_outcome (run (NewStatsCollector Second) (init_state first_fails)
                [StopCall; TimerFire; StopCall; Select true]) =
    Crashed CloseOfClosedChannel.
Proof.
  split; [reflexivity|].
  exact (second_Stop_call_crashes Second (init_state first_fails)
           [StopCall; TimerFire; StopCall; Select true] eq_refl).
Defined.

Lemma return_stops_ticker_witness :
  lp_outcome (run every_second (init_state first_fails) tick_then_stop) = Returned ∧
  tk_running (lp_ticker (run every_second (init_state first_fails) tick_then_stop)) =
    false ∧
  last (lp_events (run every_second (init_state first_fails) tick_then_stop)) =
    Some stopped_line.
Proof.
  assert (Hret : lp_outcome (run every_second (init_state first_fails)
                               tick_then_stop) = Returned).
  { vm_compute. reflexivity. }
  split; [exact Hret|].
  exact (proj1 (return_stops_ticker every_second (init_state first_fails)
                  tick_then_stop) Hret).
Defined.

Lemma deduplicate_records_idempotent_witness :
  NoDup (domain_of <$> [rewrite "web.docker" "10.0.0.1";
                        rewrite "example.com" "1.2.3.4"]) ∧
  Forall (λ r : DnsRecord, ∃ d, r !! "domain" = Some d ∧ d ≠ "")
         [rewrite "web.docker" "10.0.0.1"; rewrite "example.com" "1.2.3.4"] ∧
  deduplicate_records [rewrite "web.docker" "10.0.0.1";
                       rewrite "example.com" "1.2.3.4"] =
    [rewrite "web.docker" "10.0.0.1"; rewrite "example.com" "1.2.3.4"].
Proof.
  assert (Hnd : NoDup (domain_of <$> [rewrite "web.docker" "10.0.0.1";
                                      rewrite "example.com" "1.2.3.4"])).
  { vm_compute. apply NoDup_cons. split.
    - intros Hin. apply list_elem_of_singleton in Hin. discriminate.
    - apply NoDup_singleton. }
  assert (Hall : Forall (λ r : DnsRecord, ∃ d, r !! "domain" = Some d ∧ d ≠ "")
                   [rewrite "web.docker" "10.0.0.1";
                    rewrite "example.com" "1.2.3.4"]).
  { repeat constructor.
    - exists "web.docker". split; [vm_compute; reflexivity|discriminate].
    - exists "example.com". split; [vm_compute; reflexivity|discriminate]. }
  split; [exact Hnd|]. split; [exact Hall|].
  exact (proj1 (deduplicate_records_idempotent
                  [rewrite "web.docker" "10.0.0.1";
                   rewrite "example.com" "1.2.3.4"]) Hnd Hall).
Defined.

Lemma container_name_every_occurrence_witness :
  container_name ("web" +:+ ".docker" +:+ ".docker") = "web" +:+ container_name ".docker".
Proof.
  apply (container_name_every_occurrence "web" ".docker").
  apply short_name_no_docker. cbn. lia.
Defined.

Lemma container_name_round_trip_witness :
  is_container_dns_record ("web" +:+ ".docker") = true ∧
  container_name ("web" +:+ ".docker") = "web".
Proof.
  apply (container_name_round_trip "web").
  - apply short_name_no_docker. cbn. lia.
  - discriminate.
  - discriminate.
Defined.

Lemma container_names_round_trip_witness :
  container_names (docker_output ["web"; "db"]) = ["web"; "db"].
Proof.
  apply (container_names_round_trip ["web"; "db"]).
  repeat constructor; discriminate.
Defined.

Lemma read_failure_aborts_witness :
  py_result (cleanup_stale_dns_records false true false unreachable) = false ∧
  py_result (main false true false unreachable) = 1 ∧
  posts (py_events (cleanup_stale_dns_records false true false unreachable)) = [] ∧
  gets (py_events (cleanup_stale_dns_records false true false unreachable)) =
    ["control/rewrite/list"].
Proof.
  apply (read_failure_aborts false true false unreachable).
  vm_compute. reflexivity.
Defined.

Lemma normal_mode_deletes_stale_witness :
  let active := py_result (list_active false demo) in
  let evs := py_events (cleanup_stale_dns_records false false false demo) in
  deleted evs =
    domain_of <$>
      stale_of active
        (container_records (deduplicate_records (records_of (RecordList listed)))) ∧
  added evs = [] ∧
  length (posts evs) = length (deleted evs) ∧
  Forall (λ d, container_name d ∉ active) (deleted evs).
Proof.
  apply (normal_mode_deletes_stale false demo (RecordList listed)).
  vm_compute. reflexivity.
Defined.

Lemma force_mode_recreates_active_witness :
  let active := py_result (list_active false demo) in
  let recs := container_records (deduplicate_records (records_of (RecordList listed))) in
  let evs := py_events (cleanup_stale_dns_records false true false demo) in
  actions evs =
    [PyDockerPs] ++ list_request ::
    ((λ r, delete_request (domain_of r)) <$> recs) ++
    (add_request <$> active_of active recs) ++ [PySleep 2; list_request] ∧
  deleted evs = domain_of <$> recs ∧
  added evs = (λ r, (domain_of r, answer_of r)) <$> active_of active recs.
Proof.
  apply (force_mode_recreates_active false demo (RecordList listed)).
  - vm_compute. reflexivity.
  - vm_compute. discriminate.
Defined.

Lemma nothing_stale_nothing_done_witness :
  let evs := py_events (cleanup_stale_dns_records false true false tidy) in
  posts evs = [] ∧ sleeps evs = [] ∧ gets evs = ["control/rewrite/list"] ∧
  py_result (cleanup_stale_dns_records false true false tidy) = true ∧
  py_result (main false true false tidy) = 0.
Proof.
  apply (nothing_stale_nothing_done false true false tidy
           (RecordList [rewrite "web.docker" "10.0.0.1";
                        rewrite "example.com" "1.2.3.4"])).
  - vm_compute. reflexivity.
  - vm_compute. reflexivity.
Defined.

Lemma docker_failure_deletes_all_witness :
  py_result (get_active_containers docker_down) = [] ∧
  deleted (py_events (cleanup_stale_dns_records false false false docker_down)) =
    domain_of <$>
      container_records (deduplicate_records (records_of (RecordList listed))).
Proof.
  apply (docker_failure_deletes_all docker_down
           "No such file or directory: docker" (RecordList listed)).
  - reflexivity.
  - vm_compute. reflexivity.
Defined.

(** What the runs above come to on the example server. *)
Lemma demo_runs :
  deleted (py_events (cleanup_stale_dns_records false false false demo)) =
    ["old.docker"] ∧
  deleted (py_events (cleanup_stale_dns_records false true false demo)) =
    ["web.docker"; "old.docker"] ∧
  added (py_events (cleanup_stale_dns_records false true false demo)) =
    [("web.docker", "10.0.0.3")] ∧
  deleted (py_events (cleanup_stale_dns_records false false false docker_down)) =
    ["web.docker"; "old.docker"].
Proof. repeat split; vm_compute; reflexivity. Qed.
